(** * MoonDock: the event normaliser and the Docker event watcher

    A shallow embedding of [moondock/events/parser.py] and
    [moondock/events/watcher.py], and the properties of the two that the
    specification states.

    - [Py]      : the Python values a decoded Docker event is made of, the
                  built-in operations the two modules apply to them, and an
                  error monad for raised exceptions.
    - [Parser]  : [parse_event] and its helpers.
    - [Watcher] : [DockerEventWatcher], its loop run against a script of what
                  the Docker daemon, the handler, the operating system and
                  the other threads do. *)

From Stdlib Require Import ZArith List String Ascii Bool Floats Lia DecimalString.
Import ListNotations.

#[local] Set Warnings "-register-all".
#[local] Open Scope string_scope.
#[local] Open Scope Z_scope.
#[local] Open Scope list_scope.

(* ================================================================== *)
(** ** Python values and built-ins *)
(* ================================================================== *)

Module Py.

(** What [json] decoding produces, which is what [client.events(decode=True)]
    yields: [None], booleans, integers of any size, binary64 floats, strings,
    lists, and dicts keyed by strings.  Strings are ASCII text.  A dict is
    the list of its entries; [get] reads the first entry of a key. *)
Inductive value : Type :=
| VNone
| VBool (b : bool)
| VInt (n : Z)
| VFloat (x : float)
| VStr (s : string)
| VList (items : list value)
| VDict (entries : list (string * value)).

Definition dict : Type := list (string * value).

(** Instances of [Exception], by class: what [except Exception] catches.
    [OSError], [APIError] and [DockerException] are the classes the watcher
    names in its first [except] clause. *)
Inductive exn : Type :=
| AttributeError
| TypeError
| ValueError
| OverflowError
| OSError
| APIError
| DockerException
| RuntimeError.

(** A computation returns or raises. *)
Inductive result (A : Type) : Type :=
| Ok (a : A)
| Raise (e : exn).
Arguments Ok {A} a.
Arguments Raise {A} e.

Definition bind {A B} (m : result A) (k : A -> result B) : result B :=
  match m with
  | Ok a => k a
  | Raise e => Raise e
  end.

(** [try: body  except Exception as exc: handler] *)
Definition try_except {A} (body : result A) (handler : exn -> result A) : result A :=
  match body with
  | Ok a => Ok a
  | Raise e => handler e
  end.

(** *** Truth value, [or], [dict.get] *)

Definition truthy (v : value) : bool :=
  match v with
  | VNone => false
  | VBool b => b
  | VInt n => negb (n =? 0)
  | VFloat x => negb (x =? 0)%float
  | VStr s => negb (s =? "")%string
  | VList items => match items with [] => false | _ => true end
  | VDict entries => match entries with [] => false | _ => true end
  end.

(** [a or b] *)
Definition py_or (a b : value) : value := if truthy a then a else b.

Definition is_none (v : value) : bool :=
  match v with VNone => true | _ => false end.

(** [d.get(key)] on a dict: the value, or [None]. *)
Fixpoint get (d : dict) (key : string) : value :=
  match d with
  | [] => VNone
  | (k, v) :: rest => if (k =? key)%string then v else get rest key
  end.

(** [v.get(key)] on any value: only a dict has the method. *)
Definition dot_get (v : value) (key : string) : result value :=
  match v with
  | VDict d => Ok (get d key)
  | _ => Raise AttributeError
  end.

(** *** Strings *)

Definition is_space (c : ascii) : bool :=
  let n := N_of_ascii c in
  (((9 <=? n) && (n <=? 13)) || ((28 <=? n) && (n <=? 32)))%N.

Definition lower_char (c : ascii) : ascii :=
  let n := N_of_ascii c in
  if ((65 <=? n) && (n <=? 90))%N then ascii_of_N (n + 32) else c.

Fixpoint lower (s : string) : string :=
  match s with
  | EmptyString => EmptyString
  | String c rest => String (lower_char c) (lower rest)
  end.

Fixpoint lstrip (s : string) : string :=
  match s with
  | EmptyString => EmptyString
  | String c rest => if is_space c then lstrip rest else s
  end.

Definition reverse (s : string) : string :=
  string_of_list_ascii (rev (list_ascii_of_string s)).

Definition rstrip (s : string) : string := reverse (lstrip (reverse s)).

(** [s.strip()] *)
Definition strip (s : string) : string := rstrip (lstrip s).

(** [v.lower()] and [v.strip()]: methods of strings only. *)
Definition dot_lower (v : value) : result string :=
  match v with
  | VStr s => Ok (lower s)
  | _ => Raise AttributeError
  end.

Definition dot_strip (v : value) : result string :=
  match v with
  | VStr s => Ok (strip s)
  | _ => Raise AttributeError
  end.

(** *** Numbers *)

(** [isinstance(v, (int, float))]; [bool] is a subclass of [int]. *)
Definition is_number (v : value) : bool :=
  match v with
  | VBool _ | VInt _ | VFloat _ => true
  | _ => false
  end.

(** [v > 0] for a number [v]. *)
Definition positive (v : value) : bool :=
  match v with
  | VBool b => b
  | VInt n => 0 <? n
  | VFloat x => (0 <? x)%float
  | _ => false
  end.

(** The float nearest to an integer (ties to even). *)
Definition float_of_Z (n : Z) : float :=
  SF2Prim (binary_normalize prec emax n 0 false).

(** [float(v)] for a number [v]: an integer beyond the float range raises. *)
Definition to_float (v : value) : result float :=
  match v with
  | VBool b => Ok (if b then 1%float else 0%float)
  | VInt n =>
      let x := float_of_Z n in
      if PrimFloat.is_infinity x then Raise OverflowError else Ok x
  | VFloat x => Ok x
  | _ => Raise TypeError
  end.

Definition is_digit (c : ascii) : bool :=
  let n := N_of_ascii c in ((48 <=? n) && (n <=? 57))%N.

Definition digit_value (c : ascii) : Z := Z.of_N (N_of_ascii c) - 48.

(** Decimal digits, single underscores allowed between two digits. *)
Fixpoint digits (acc : Z) (after_digit : bool) (s : string) : option Z :=
  match s with
  | EmptyString => if after_digit then Some acc else None
  | String c rest =>
      if is_digit c then digits (10 * acc + digit_value c) true rest
      else if (c =? "_")%char && after_digit then digits acc false rest
      else None
  end.

(** The blanks [int] skips at both ends of a string: tab, line feed,
    vertical tab, form feed, carriage return and space.  The separators
    28 to 31, which [str.strip] removes, are not among them. *)
Definition is_int_blank (c : ascii) : bool :=
  let n := N_of_ascii c in (((9 <=? n) && (n <=? 13)) || (n =? 32))%N.

Fixpoint skip_blanks (s : string) : string :=
  match s with
  | EmptyString => EmptyString
  | String c rest => if is_int_blank c then skip_blanks rest else s
  end.

Fixpoint count_digits (s : string) : nat :=
  match s with
  | EmptyString => O
  | String c rest => if is_digit c then S (count_digits rest) else count_digits rest
  end.

(** [sys.int_info.default_max_str_digits] *)
Definition max_str_digits : nat := 4300.

(** [int(s)] for a string: blanks around, an optional sign, digits; [None]
    stands for the [ValueError] of a string that is not a number or that
    has more digits than the interpreter's limit. *)
Definition int_of_string (s : string) : option Z :=
  let body := reverse (skip_blanks (reverse (skip_blanks s))) in
  if (max_str_digits <? count_digits body)%nat then None
  else
    match body with
    | String "-" rest => option_map Z.opp (digits 0 false rest)
    | String "+" rest => digits 0 false rest
    | _ => digits 0 false body
    end.

(** [int(x)] for a float: truncation toward zero. *)
Definition int_of_float (x : float) : result Z :=
  match Prim2SF x with
  | S754_zero _ => Ok 0
  | S754_finite neg m e =>
      let magnitude := Z.shiftl (Z.pos m) e in
      Ok (if neg then - magnitude else magnitude)
  | S754_infinity _ => Raise OverflowError
  | S754_nan => Raise ValueError
  end.

(** [int(v)] *)
Definition int (v : value) : result Z :=
  match v with
  | VBool b => Ok (if b then 1 else 0)
  | VInt n => Ok n
  | VFloat x => int_of_float x
  | VStr s =>
      match int_of_string s with
      | Some n => Ok n
      | None => Raise ValueError
      end
  | VNone | VList _ | VDict _ => Raise TypeError
  end.

(** [min(a, b)] on floats: [b] only when [b < a]. *)
Definition min (a b : float) : float := if (b <? a)%float then b else a.

(** *** [time.sleep]

    The interpreter turns the duration into a whole number of nanoseconds
    held in 64 bits, and refuses a duration that is not a number, one that
    does not fit, and a negative one.  A duration it accepts it hands to the
    operating system.  (At exactly 2^63 nanoseconds CPython 3.11 raises
    [ValueError] where [OverflowError] stands here; the watcher treats the
    two alike.) *)
Definition refusal (secs : float) : option exn :=
  if PrimFloat.is_nan secs then Some ValueError
  else
    let nanos := (secs * 1e9)%float in
    if ((nanos <? -0x1p63) || (0x1p63 <=? nanos))%float then Some OverflowError
    else if (secs <? 0)%float then Some ValueError
    else None.

(** [time.sleep(secs)]; [os] is what the operating system raises when it is
    asked to wait, if it raises. *)
Definition sleep (secs : float) (os : option exn) : result unit :=
  match refusal secs with
  | Some e => Raise e
  | None =>
      match os with
      | Some e => Raise e
      | None => Ok tt
      end
  end.

End Py.

Import Py.

Declare Scope py_scope.
Notation "x <- m ;; k" := (Py.bind m (fun x => k))
  (at level 61, m at next level, right associativity) : py_scope.
#[local] Open Scope py_scope.

(* ================================================================== *)
(** ** moondock/events/parser.py *)
(* ================================================================== *)

Module Parser.

(** The dataclass [NormalizedEvent].  The constructor checks no field, so
    [action], [id], [name] and [image] hold whatever value the parser found;
    [domain] is the result of [str.lower]. *)
Record NormalizedEvent : Type := {
  domain : string;
  action : value;
  id : value;
  name : value;
  image : value;
  exit_code : option Z;
  timestamp : float;
  attributes : dict;
  raw : dict
}.

Definition _ACTION_NORMALIZATION : list (string * string) :=
  [ ("create", "create");
    ("start", "start");
    ("stop", "stop");
    ("die", "die");
    ("destroy", "destroy");
    ("restart", "restart");
    ("pause", "pause");
    ("unpause", "unpause");
    ("health_status: healthy", "health_healthy");
    ("health_status: unhealthy", "health_unhealthy");
    ("pull", "pull");
    ("push", "push") ].

Fixpoint lookup (table : list (string * string)) (key : string) : value :=
  match table with
  | [] => VNone
  | (k, v) :: rest => if (k =? key)%string then VStr v else lookup rest key
  end.

(** [_ACTION_NORMALIZATION.get(key)]: the key is hashed first, which a list
    or a dict refuses; no key of the table equals a value that is not a
    string. *)
Definition table_get (key : value) : result value :=
  match key with
  | VStr s => Ok (lookup _ACTION_NORMALIZATION s)
  | VList _ | VDict _ => Raise TypeError
  | _ => Ok VNone
  end.

(** [now] is what [time.time()] returns. *)
Definition _to_timestamp (now : float) (raw : value) : result float :=
  if is_none raw then Ok now
  else
    t <- dot_get raw "time" ;;
    if is_number t && positive t then to_float t
    else
      tnano <- dot_get raw "timeNano" ;;
      if is_number tnano && positive tnano then
        x <- to_float tnano ;; Ok (x / 1e9)%float
      else
        t1 <- dot_get raw "timestamp" ;;
        t2 <- dot_get raw "timeStamp" ;;
        let t_alt := py_or t1 t2 in
        if is_number t_alt && positive t_alt then to_float t_alt
        else Ok now.

Definition _normalize_action (raw_action : value) : result value :=
  if negb (truthy raw_action) then Ok VNone
  else
    normalized <- table_get raw_action ;;
    if truthy normalized then Ok normalized
    else
      try_except
        (stripped <- dot_strip raw_action ;;
         lowered <- dot_lower (VStr stripped) ;;
         Ok (VStr lowered))
        (fun _ => Ok raw_action).

Definition _safe_get_actor_attributes (raw : dict) : result dict :=
  let actor := py_or (get raw "Actor") (py_or (get raw "actor") (VDict [])) in
  a1 <- dot_get actor "Attributes" ;;
  a2 <- dot_get actor "attributes" ;;
  match py_or a1 (py_or a2 (VDict [])) with
  | VDict attrs => Ok attrs
  | _ => Ok []
  end.

(** The [for key in ("exitCode", "exit_code", "exit")] loop. *)
Fixpoint scan_exit_code (attrs raw : dict) (keys : list string) : option Z :=
  match keys with
  | [] => None
  | key :: rest =>
      let val := get attrs key in
      let val := if is_none val then get raw key else val in
      if is_none val then scan_exit_code attrs raw rest
      else
        match int val with
        | Ok n => Some n
        | Raise _ => scan_exit_code attrs raw rest
        end
  end.

(** The dict [_extract_container_info] returns, by key. *)
Record container_info : Type := {
  info_id : value;
  info_name : value;
  info_image : value;
  info_exit_code : option Z;
  info_attributes : dict
}.

Definition _extract_container_info (raw : dict) : result container_info :=
  attrs <- _safe_get_actor_attributes raw ;;
  let container_id :=
    py_or (get raw "id")
      (py_or (get raw "ID") (py_or (get attrs "container") (get attrs "id"))) in
  let name := py_or (get attrs "name") (py_or (get attrs "container") VNone) in
  let image := py_or (get attrs "image") (py_or (get attrs "image.name") VNone) in
  let exit_code := scan_exit_code attrs raw ["exitCode"; "exit_code"; "exit"] in
  Ok {| info_id := container_id;
        info_name := name;
        info_image := image;
        info_exit_code := exit_code;
        info_attributes := attrs |}.

(** The raw action [parse_event] reads: [Action], else [action], else
    [status]. *)
Definition raw_action_of (raw : dict) : value :=
  py_or (get raw "Action") (py_or (get raw "action") (get raw "status")).

Definition parse_event (now : float) (raw : value) : result (option NormalizedEvent) :=
  match raw with
  | VDict d =>
      domain <- dot_lower (py_or (get d "Type") (py_or (get d "type") (VStr "unknown"))) ;;
      action <- _normalize_action (raw_action_of d) ;;
      if negb (truthy action) then Ok None
      else
        ts <- _to_timestamp now raw ;;
        try_except
          (if (domain =? "container")%string then
             info <- _extract_container_info d ;;
             Ok (Some {| domain := domain;
                         action := action;
                         id := py_or (info_id info) (VStr "<unknown>");
                         name := info_name info;
                         image := info_image info;
                         exit_code := info_exit_code info;
                         timestamp := ts;
                         attributes := info_attributes info;
                         raw := d |})
           else
             let resource_id := py_or (get d "id") (py_or (get d "ID") VNone) in
             attributes <- _safe_get_actor_attributes d ;;
             Ok (Some {| domain := domain;
                         action := action;
                         id := py_or resource_id (VStr "<unknown>");
                         name := get attributes "name";
                         image := get attributes "image";
                         exit_code := None;
                         timestamp := ts;
                         attributes := attributes;
                         raw := d |}))
          (fun _ => Ok None)
  | _ => Ok None
  end.

End Parser.

(* ================================================================== *)
(** ** moondock/events/watcher.py *)
(* ================================================================== *)

Module Watcher.

(** The keyword arguments of [DockerEventWatcher.__init__], after its
    [float(...)] and [int(...)] conversions. *)
Record config : Type := {
  initial_backoff : float;
  backoff_factor : float;
  max_backoff : float;
  max_retries : option Z
}.

(** The classes of [except (APIError, DockerException, OSError)]. *)
Definition is_stream_error (e : exn) : bool :=
  match e with
  | APIError | DockerException | OSError => true
  | _ => false
  end.

(** *** What the loop runs against

    The logger returns; each call of it and of [time.sleep] is an [event] of
    the trace.

    The loop reads the daemon (opening the stream, the items of the stream),
    calls the handler, asks the operating system to wait, and reads the stop
    flag, which another thread sets.  A script fixes all of it: one item per
    call of [client.events], with what the call does, the items the stream
    yields and what the handler does on each, and where the other thread's
    [stop()] falls among them.  After [Connect] the operating system
    carries out the sleeps of the pass; after [Refusing] it refuses them,
    the first with the first of [refusals] and so on (an [OSError] for a
    deadline the clock cannot hold, or what a signal handler raises). *)

Inductive handler_outcome : Type :=
| Returns
| Raises (e : exn).

Inductive stream_step : Type :=
| Yield (raw_event : value) (h : handler_outcome)
| StopSet.

Inductive stream_end : Type :=
| Closed
| Broken (e : exn).

Inductive attempt : Type :=
| OpenRaises (e : exn)
| Opened (steps : list stream_step) (fin : stream_end).

Inductive script_item : Type :=
| Connect (a : attempt)
| Refusing (a : attempt) (refusals : list exn)
| StopRequest.

Definition script : Type := list script_item.

(** *** What the loop does: calls, sleeps and log records, in order *)

Inductive event : Type :=
| Opening
| Dispatched (raw_event : value)
| CallbackError (e : exn)
| StopObserved
| ClosedUnexpectedly
| StreamError (e : exn)
| Critical (ceiling : Z)
| Reconnecting (backoff : float) (attempt : Z)
| Unexpected (e : exn)
| Slept (seconds : float)
| SleepRaised (seconds : float) (e : exn)
| Stopped
| AlreadyRunning.

(** The locals [retries] and [backoff] of [_run]. *)
Record loop_state : Type := {
  retries : Z;
  backoff : float
}.

(** [STOPPED]: [_run] has returned.  [RUNNING]: the script has ended and the
    loop waits for the daemon, with these locals.  [RAISED]: [_run] has
    ended by this exception, which nothing in it catches. *)
Inductive status : Type :=
| STOPPED
| RUNNING (st : loop_state)
| RAISED (e : exn).

(** The trace, the stop flag at the end, and the status. *)
Definition outcome : Type := (list event * bool * status)%type.

Definition prepend (tr : list event) (o : outcome) : outcome :=
  let '(rest, flag, s) := o in (tr ++ rest, flag, s).

Definition trace_of (o : outcome) : list event := fst (fst o).
Definition flag_of (o : outcome) : bool := snd (fst o).
Definition status_of (o : outcome) : status := snd o.

(** [backoff = min(backoff * self.backoff_factor, self.max_backoff)] *)
Definition escalate (cfg : config) (b : float) : float :=
  Py.min (b * backoff_factor cfg)%float (max_backoff cfg).

(** The two assignments after [client.events] has returned. *)
Definition after_open (cfg : config) : loop_state :=
  {| retries := 0; backoff := initial_backoff cfg |}.

(** How one pass through the body of the [while] loop ends: the loop goes
    on with these locals, a [break] leaves it, or an exception escapes from
    it. *)
Inductive next : Type :=
| Continue (st : loop_state)
| Leave
| Escape (e : exn).

(** [time.sleep(backoff)] followed by the escalation of the backoff, as both
    [except] clauses end, after the records [logged]; [counted] is the retry
    counter the loop goes on with.  An exception of the sleep is raised
    inside the [except] clause, where nothing catches it. *)
Definition back_off (cfg : config) (st : loop_state) (logged : list event)
           (counted : Z) (os : option exn) : list event * next :=
  match Py.sleep (backoff st) os with
  | Ok _ =>
      (logged ++ [Slept (backoff st)],
       Continue {| retries := counted; backoff := escalate cfg (backoff st) |})
  | Raise e => (logged ++ [SleepRaised (backoff st) e], Escape e)
  end.

(** The two [except] clauses of the loop body, entered with the exception
    [e]: the trace, and how the pass ends. *)
Definition handle_error (cfg : config) (st : loop_state) (e : exn)
           (os : option exn) : list event * next :=
  if is_stream_error e then
    let n := retries st + 1 in
    let reconnect :=
      back_off cfg st [StreamError e; Reconnecting (backoff st) n] n os in
    match max_retries cfg with
    | Some ceiling =>
        if ceiling <? n then ([StreamError e; Critical ceiling], Leave)
        else reconnect
    | None => reconnect
    end
  else back_off cfg st [Unexpected e] (retries st) os.

(** The path after the [for] loop when the stream has ended without an
    error and the flag is not set: a warning and a sleep.  The sleep is
    inside the [try]: an exception of it is handled by the [except] clause
    of its class. *)
Definition handle_closed (cfg : config) (st : loop_state) (refusals : list exn)
  : list event * next :=
  match Py.sleep (backoff st) (nth_error refusals 0) with
  | Ok _ => ([ClosedUnexpectedly; Slept (backoff st)], Continue st)
  | Raise e =>
      let '(tr, nxt) := handle_error cfg st e (nth_error refusals 1) in
      (ClosedUnexpectedly :: SleepRaised (backoff st) e :: tr, nxt)
  end.

(** [try: self.callback(raw_event)  except Exception: logger.exception(...)] *)
Definition called (raw_event : value) (h : handler_outcome) : list event :=
  match h with
  | Returns => [Dispatched raw_event]
  | Raises e => [Dispatched raw_event; CallbackError e]
  end.

(** How the [for raw_event in stream] loop was left. *)
Inductive for_exit : Type :=
| Exhausted
| Break.

(** [for raw_event in stream: ...] over the items the stream yields before it
    ends: the trace, the stop flag afterwards, and how the loop was left. *)
Fixpoint consume (stop_set : bool) (steps : list stream_step)
  : list event * bool * for_exit :=
  match steps with
  | [] => ([], stop_set, Exhausted)
  | StopSet :: rest => consume true rest
  | Yield raw_event h :: rest =>
      if stop_set then ([StopObserved], stop_set, Break)
      else
        let '(tr, flag, how) := consume stop_set rest in
        (called raw_event h ++ tr, flag, how)
  end.

(** One pass through the body of the [while] loop, after the record of the
    opening: the trace, the stop flag, and how the pass ends. *)
Definition pass (cfg : config) (st : loop_state) (a : attempt)
           (refusals : list exn) : list event * bool * next :=
  match a with
  | OpenRaises e =>
      let '(tr, nxt) := handle_error cfg st e (nth_error refusals 0) in
      (tr, false, nxt)
  | Opened steps fin =>
      let st1 := after_open cfg in
      let '(tr, flag, how) := consume false steps in
      match how, fin with
      | Break, _ => (tr, flag, Leave)
      | Exhausted, Closed =>
          if flag then (tr, flag, Leave)
          else
            let '(tr', nxt) := handle_closed cfg st1 refusals in
            (tr ++ tr', flag, nxt)
      | Exhausted, Broken e =>
          let '(tr', nxt) := handle_error cfg st1 e (nth_error refusals 0) in
          (tr ++ tr', flag, nxt)
      end
  end.

(** [while not self._stop_event.is_set(): ...] and the log record after it,
    which an escaping exception skips. *)
Fixpoint loop (cfg : config) (st : loop_state) (stop_set : bool) (sc : script)
  : outcome :=
  if stop_set then ([Stopped], true, STOPPED)
  else
    match sc with
    | [] => ([], false, RUNNING st)
    | item :: rest =>
        let run (a : attempt) (refusals : list exn) : outcome :=
          match pass cfg st a refusals with
          | (tr, flag, Continue st') =>
              prepend (Opening :: tr) (loop cfg st' flag rest)
          | (tr, flag, Leave) => (Opening :: tr ++ [Stopped], flag, STOPPED)
          | (tr, flag, Escape e) => (Opening :: tr, flag, RAISED e)
          end in
        match item with
        | StopRequest => loop cfg st true rest
        | Connect a => run a []
        | Refusing a refusals => run a refusals
        end
    end.

(** *** The watcher object *)

(** [self._stop_event] and whether [self._worker] holds a thread. *)
Record watcher : Type := {
  settings : config;
  _stop_event : bool;
  _worker : bool
}.

Definition __init__ (cfg : config) : watcher :=
  {| settings := cfg; _stop_event := false; _worker := false |}.

Definition _run (w : watcher) (sc : script) : outcome :=
  loop (settings w)
       {| retries := 0; backoff := initial_backoff (settings w) |}
       (_stop_event w) sc.

Definition stop (w : watcher) : watcher :=
  {| settings := settings w; _stop_event := true; _worker := _worker w |}.

(** [start_forever] runs [_run] in the calling thread, [start_in_background]
    in a new one.  An exception that ends [_run] reaches the caller of the
    first and ends the thread of the second; the flag and the trace are as
    [_run] left them. *)
Definition start_forever (w : watcher) (sc : script) : watcher * list event :=
  let o := _run w sc in
  ({| settings := settings w; _stop_event := flag_of o; _worker := _worker w |},
   trace_of o).

(** [is_alive] is what [self._worker.is_alive()] answers. *)
Definition start_in_background (w : watcher) (is_alive : bool) (sc : script)
  : watcher * list event :=
  if _worker w && is_alive then (w, [AlreadyRunning])
  else
    let o := _run w sc in
    ({| settings := settings w; _stop_event := flag_of o; _worker := true |},
     trace_of o).

(** The public methods, as calls on one watcher. *)
Inductive call : Type :=
| CallStop
| CallStartForever (sc : script)
| CallStartInBackground (is_alive : bool) (sc : script).

Definition perform (w : watcher) (c : call) : watcher * list event :=
  match c with
  | CallStop => (stop w, [])
  | CallStartForever sc => start_forever w sc
  | CallStartInBackground is_alive sc => start_in_background w is_alive sc
  end.

Fixpoint perform_all (w : watcher) (cs : list call) : watcher :=
  match cs with
  | [] => w
  | c :: rest => perform_all (fst (perform w c)) rest
  end.

(** *** Reading a trace *)

Fixpoint sleeps (tr : list event) : list float :=
  match tr with
  | [] => []
  | Slept d :: rest => d :: sleeps rest
  | _ :: rest => sleeps rest
  end.

Fixpoint opens (tr : list event) : nat :=
  match tr with
  | [] => O
  | Opening :: rest => S (opens rest)
  | _ :: rest => opens rest
  end.

Fixpoint dispatched (tr : list event) : list value :=
  match tr with
  | [] => []
  | Dispatched raw_event :: rest => raw_event :: dispatched rest
  | _ :: rest => dispatched rest
  end.

(** [n] consecutive calls of [client.events] that raise [e]. *)
Definition failures (e : exn) (n : nat) : script :=
  repeat (Connect (OpenRaises e)) n.

(** A stretch of a stream during which no thread calls [stop()]: the items
    yielded, each with what the handler does on it; and the calls of the
    handler the loop makes over it. *)
Definition yields (items : list (value * handler_outcome)) : list stream_step :=
  map (fun item => Yield (fst item) (snd item)) items.

Definition calls (items : list (value * handler_outcome)) : list event :=
  flat_map (fun item => called (fst item) (snd item)) items.

(** [n] more retries after [r] stay within the ceiling, if there is one. *)
Definition within (ceiling : option Z) (r : Z) (n : nat) : Prop :=
  match ceiling with
  | Some c => r + Z.of_nat n <= c
  | None => True
  end.

(** The sleeps of the specification's example: 1, 2, 4, then 5 for ever. *)
Definition doubling_capped (i : nat) : float :=
  match i with
  | 0%nat => 1
  | 1%nat => 2
  | 2%nat => 4
  | _ => 5
  end.

End Watcher.

(* ================================================================== *)
(** ** The specification's reading of the parser *)
(* ================================================================== *)

Module Spec.

Import Parser.

(** One rule of the timestamp chain: the value it looks at, whether the
    value must be positive besides being a number, and what is done to it. *)
Record ts_rule : Type := {
  candidate : value;
  positive_only : bool;
  convert : float -> float
}.

Definition satisfied (r : ts_rule) : bool :=
  is_number (candidate r) && implb (positive_only r) (positive (candidate r)).

(** First satisfied rule wins; the wall clock when none is. *)
Fixpoint first_satisfied (now : float) (rules : list ts_rule) : result float :=
  match rules with
  | [] => Ok now
  | r :: rest =>
      if satisfied r then x <- to_float (candidate r) ;; Ok (convert r x)
      else first_satisfied now rest
  end.

Definition seconds (x : float) : float := x.
Definition nanoseconds (x : float) : float := (x / 1e9)%float.

(** The chain as the specification words it: [time] and [timeNano] numeric
    and positive, [timestamp] and [timeStamp] numeric. *)
Definition chain_as_specified (raw : dict) : list ts_rule :=
  [ {| candidate := get raw "time"; positive_only := true; convert := seconds |};
    {| candidate := get raw "timeNano"; positive_only := true; convert := nanoseconds |};
    {| candidate := get raw "timestamp"; positive_only := false; convert := seconds |};
    {| candidate := get raw "timeStamp"; positive_only := false; convert := seconds |} ].

(** The chain of the code: the third rule looks at [timestamp], or at
    [timeStamp] when [timestamp] is absent or falsy, and wants it positive
    like the first two. *)
Definition chain (raw : dict) : list ts_rule :=
  [ {| candidate := get raw "time"; positive_only := true; convert := seconds |};
    {| candidate := get raw "timeNano"; positive_only := true; convert := nanoseconds |};
    {| candidate := py_or (get raw "timestamp") (get raw "timeStamp");
       positive_only := true; convert := seconds |} ].

(** The first truthy value of a list, [None] when there is none. *)
Fixpoint first_truthy (vs : list value) : value :=
  match vs with
  | [] => VNone
  | v :: rest => if truthy v then v else first_truthy rest
  end.

(** The first value of a list that [int] accepts. *)
Fixpoint first_int (vs : list value) : option Z :=
  match vs with
  | [] => None
  | v :: rest =>
      match Py.int v with
      | Ok n => Some n
      | Raise _ => first_int rest
      end
  end.

Definition exit_keys : list string := ["exitCode"; "exit_code"; "exit"].

(** The scan as the specification words it: the three attribute keys, then
    the three top-level keys. *)
Definition exit_code_as_specified (attrs raw : dict) : option Z :=
  first_int (map (get attrs) exit_keys ++ map (get raw) exit_keys).

(** The scan of the code: key by key, the attribute, or the top-level value
    of the same key when the attribute is absent. *)
Definition per_key (attrs raw : dict) (key : string) : value :=
  if is_none (get attrs key) then get raw key else get attrs key.

Definition exit_code_per_key (attrs raw : dict) : option Z :=
  first_int (map (per_key attrs raw) exit_keys).

Definition is_nonempty_string (v : value) : bool :=
  match v with
  | VStr s => negb (s =? "")%string
  | _ => false
  end.

(** A known verb goes through the table; any other string is trimmed and
    lower-cased. *)
Definition normalized_verb (s : string) : string :=
  match lookup _ACTION_NORMALIZATION s with
  | VStr v => v
  | _ => lower (strip s)
  end.

End Spec.

(* ================================================================== *)
(** ** Events and configurations of the specification's examples *)
(* ================================================================== *)

Module Examples.

Import Parser Watcher.

(** A mapping whose only time field is a negative [timestamp]. *)
Definition negative_timestamp_event : dict :=
  [("Action", VStr "start"); ("timestamp", VInt (-5))].

(** A container event with [exit] among the attributes and [exitCode] at the
    top level. *)
Definition mixed_exit_event : dict :=
  [ ("Type", VStr "container");
    ("Action", VStr "die");
    ("exitCode", VStr "2");
    ("Actor", VDict [("Attributes", VDict [("exit", VStr "1")])]) ].

(** The "die" event of the tests: exit code "137" among the attributes. *)
Definition die_event : dict :=
  [ ("Type", VStr "container");
    ("Action", VStr "die");
    ("id", VStr "91ab3921c2384f5d6e7f8a9b0c1d2e3f4a5b6c7d8e9f0a1b2c3d4e5f6a7b8c9");
    ("time", VInt 1700000000);
    ("Actor", VDict [("Attributes",
       VDict [ ("name", VStr "my_test_container");
               ("image", VStr "busybox:latest");
               ("exitCode", VStr "137") ])]) ].

Definition die_normalized : NormalizedEvent :=
  {| domain := "container";
     action := VStr "die";
     id := VStr "91ab3921c2384f5d6e7f8a9b0c1d2e3f4a5b6c7d8e9f0a1b2c3d4e5f6a7b8c9";
     name := VStr "my_test_container";
     image := VStr "busybox:latest";
     exit_code := Some 137;
     timestamp := 1700000000;
     attributes := [ ("name", VStr "my_test_container");
                     ("image", VStr "busybox:latest");
                     ("exitCode", VStr "137") ];
     raw := die_event |}.

(** The configuration of the specification's example: initial 1, factor 2,
    cap 5, with or without a retry ceiling. *)
Definition example_config (ceiling : option Z) : config :=
  {| initial_backoff := 1; backoff_factor := 2; max_backoff := 5;
     max_retries := ceiling |}.

(** The configuration of the watcher test: initial 1, factor 2, cap 5,
    ceiling 3. *)
Definition ceiling_config : config := example_config (Some 3).

End Examples.

(* ================================================================== *)
(** ** Reading a script and a trace *)
(* ================================================================== *)

Module Traces.

Import Watcher.

(** What [lstrip] does, on the list of the characters. *)
Fixpoint drop_spaces (l : list ascii) : list ascii :=
  match l with
  | [] => []
  | c :: rest => if is_space c then drop_spaces rest else l
  end.


(** The raw events a stream yields, in order. *)
Fixpoint steps_yielded (steps : list stream_step) : list value :=
  match steps with
  | [] => []
  | Yield raw_event _ :: rest => raw_event :: steps_yielded rest
  | StopSet :: rest => steps_yielded rest
  end.

(** The raw events one attempt yields. *)
Definition attempt_yielded (a : attempt) : list value :=
  match a with
  | OpenRaises _ => []
  | Opened steps _ => steps_yielded steps
  end.

(** The raw events all the streams of a script yield, in order. *)
Fixpoint yielded (sc : script) : list value :=
  match sc with
  | [] => []
  | Connect a :: rest => attempt_yielded a ++ yielded rest
  | Refusing a _ :: rest => attempt_yielded a ++ yielded rest
  | StopRequest :: rest => yielded rest
  end.

(** No thread calls [stop()] anywhere in the script, and the operating
    system refuses no sleep. *)
Definition quiet_steps (steps : list stream_step) : bool :=
  forallb (fun step => match step with StopSet => false | Yield _ _ => true end) steps.

Definition quiet (sc : script) : bool :=
  forallb (fun item =>
             match item with
             | StopRequest => false
             | Refusing _ _ => false
             | Connect (OpenRaises _) => true
             | Connect (Opened steps _) => quiet_steps steps
             end) sc.

(** The ceilings logged as exceeded. *)
Fixpoint criticals (tr : list event) : list Z :=
  match tr with
  | [] => []
  | Critical ceiling :: rest => ceiling :: criticals rest
  | _ :: rest => criticals rest
  end.

(** The faults of the handler that the loop has caught. *)
Fixpoint callback_errors (tr : list event) : list exn :=
  match tr with
  | [] => []
  | CallbackError e :: rest => e :: callback_errors rest
  | _ :: rest => callback_errors rest
  end.

(** The interpreter accepts the backoff [b] as a sleep, and every backoff
    the escalation makes of it. *)
Definition sleeps_well (cfg : config) (b : float) : Prop :=
  forall k : nat, Py.refusal (Nat.iter k (escalate cfg) b) = None.

(** [n] consecutive streams that open, yield [items] and break with [e]. *)
Definition broken_streams (items : list (value * handler_outcome)) (e : exn)
           (n : nat) : script :=
  repeat (Connect (Opened (yields items) (Broken e))) n.

End Traces.

(* ================================================================== *)
(** ** moondock/clients/discord_client.py *)
(* ================================================================== *)

Module Discord.

Import Parser.

Definition ACTION_EMOJIS : list (string * string) :=
  [ ("die", "🪦 ");
    ("kill", "💀 ");
    ("oom", "💥 ");
    ("restart", "⟲ ");
    ("start", "▶️ ");
    ("stop", "⏹️ ");
    ("create", "🏗️ ");
    ("destroy", "🗑️ ");
    ("pause", "⏸️ ");
    ("unpause", "▶️ ");
    ("health_healthy", "❤️ ");
    ("health_unhealthy", "💔 ");
    ("pull", "⬇️ ");
    ("push", "⬆️ ");
    ("connect", "🔗 ");
    ("disconnect", "⛓️ ");
    ("attach", "🔌 ") ].

Definition ACTION_COLORS : list (string * Z) :=
  [ ("die", 0xff0000);
    ("kill", 0xff4500);
    ("oom", 0xff6347);
    ("restart", 0x1e90ff);
    ("start", 0x00ff00);
    ("stop", 0x808080);
    ("create", 0x00ced1);
    ("connect", 0xffff00);
    ("disconnect", 0xffa500);
    ("destroy", 0x8b0000);
    ("pull", 0x1e90ff);
    ("push", 0x1e90ff);
    ("attach", 0x00ced1);
    ("health_healthy", 0x00ff00);
    ("health_unhealthy", 0x00ff00) ].

Fixpoint assoc {A : Type} (table : list (string * A)) (key : string) : option A :=
  match table with
  | [] => None
  | (k, a) :: rest => if (k =? key)%string then Some a else assoc rest key
  end.

(** [table.get(key, default)] on a dict keyed by strings: the key is hashed
    first, which a list or a dict refuses. *)
Definition get_default {A : Type} (table : list (string * A)) (key : value)
           (default : A) : result A :=
  match key with
  | VStr s => Ok (match assoc table s with Some a => a | None => default end)
  | VList _ | VDict _ => Raise TypeError
  | _ => Ok default
  end.

(** [v[:12]]: strings and lists can be sliced; nothing else can (a dict
    raises [KeyError] instead of [TypeError] from Python 3.12 on). *)
Definition slice12 (v : value) : result value :=
  match v with
  | VStr s => Ok (VStr (substring 0 12 s))
  | VList items => Ok (VList (firstn 12 items))
  | _ => Raise TypeError
  end.


Definition newline : string := String (ascii_of_nat 10) EmptyString.

(** The dict [_build_embed] returns, by key. *)
Record embed : Type := {
  title : string;
  color : Z;
  description : string
}.

(** [self.webhook_url] and [self.timeout]. *)
Record DiscordClient : Type := {
  webhook_url : string;
  timeout : Z
}.

(** [DiscordClient(webhook_url, timeout)], [DISCORD_WEBHOOK] being the
    constant of [config.py]. *)
Definition __init__ (DISCORD_WEBHOOK : string) (url : option string) (timeout : Z)
  : DiscordClient :=
  {| webhook_url :=
       match url with
       | Some u => if truthy (VStr u) then u else DISCORD_WEBHOOK
       | None => DISCORD_WEBHOOK
       end;
     timeout := timeout |}.

(** What [requests.post] does: a response with its status code, a
    [requests.RequestException], or any other exception. *)
Inductive post_outcome : Type :=
| Response (status_code : Z)
| RequestException
| PostRaises (e : exn).

Section Formatting.

(** [repr] of a float, a list or a dict, as the interpreter prints them. *)
Variable repr : value -> string.

(** [str(v)], which an f-string applies to the value it formats. *)
Definition str (v : value) : string :=
  match v with
  | VNone => "None"
  | VBool true => "True"
  | VBool false => "False"
  | VInt n => NilZero.string_of_int (Z.to_int n)
  | VStr s => s
  | VFloat _ | VList _ | VDict _ => repr v
  end.

Definition _build_embed (event : NormalizedEvent) : result embed :=
  emoji <- get_default ACTION_EMOJIS (action event) "" ;;
  color <- get_default ACTION_COLORS (action event) 0x808080 ;;
  let table_lines :=
    [ ("Domain      : " ++ domain event)%string;
      ("Action      : " ++ str (action event))%string ] in
  table_lines <-
    (if (domain event =? "container")%string then
       id12 <- slice12 (id event) ;;
       let table_lines :=
         table_lines
           ++ [ ("Name        : " ++ str (py_or (name event) (VStr "N/A")))%string;
                ("Image       : " ++ str (py_or (image event) (VStr "N/A")))%string;
                ("ID          : " ++ str id12)%string ] in
       Ok (match exit_code event with
           | Some n => table_lines ++ [ ("Exit Code   : " ++ str (VInt n))%string ]
           | None => table_lines
           end)
     else if (domain event =? "network")%string then
       Ok (table_lines
             ++ [ ("Network     : " ++ str (py_or (name event) (VStr "N/A")))%string;
                  ("Container   : " ++ str (py_or (name event) (VStr "N/A")))%string ])
     else
       shown <- (if truthy (id event) then slice12 (id event)
                 else Ok (VStr "<unknown>")) ;;
       Ok (table_lines ++ [ ("ID          : " ++ str shown)%string ])) ;;
  Ok {| title := (emoji ++ " Docker Event Detected")%string;
        color := color;
        description := ("```" ++ String.concat newline table_lines ++ "```")%string |}.

(** [send_event]: what it returns or raises, and the embed it has posted,
    if it has posted one. *)
Definition send_event (self : DiscordClient) (event : NormalizedEvent)
           (post : post_outcome) : result bool * option embed :=
  if negb (truthy (VStr (webhook_url self))) then (Ok false, None)
  else
    match _build_embed event with
    | Raise e => (Raise e, None)
    | Ok payload =>
        match post with
        | Response status_code =>
            (Ok ((status_code =? 200) || (status_code =? 204)), Some payload)
        | RequestException => (Ok false, Some payload)
        | PostRaises e => (Raise e, Some payload)
        end
    end.

End Formatting.

End Discord.

(* ================================================================== *)
(** ** moondock/main.py *)
(* ================================================================== *)

Module Main.

Import Parser Watcher.

(** The two log records of [docker_event_callback]. *)
Inductive record : Type :=
| EventSent (domain : string) (action : value)
| SendFailed (e : exn).

(** What a call of [docker_event_callback] does: it returns or raises, the
    embed it has posted, the records it has logged. *)
Record effects : Type := {
  returned : result unit;
  posted : option Discord.embed;
  logged : list record
}.

Section Callback.

Variable repr : value -> string.

(** [now] is the wall clock [parse_event] reads, [post] what
    [requests.post] does if it is called. *)
Definition docker_event_callback (now : float) (raw_event : value)
           (discord_client : Discord.DiscordClient) (post : Discord.post_outcome)
  : effects :=
  match parse_event now raw_event with
  | Raise e => {| returned := Raise e; posted := None; logged := [] |}
  | Ok None => {| returned := Ok tt; posted := None; logged := [] |}
  | Ok (Some ne) =>
      match Discord.send_event repr discord_client ne post with
      | (Ok _, sent) =>
          {| returned := Ok tt; posted := sent;
             logged := [EventSent (domain ne) (action ne)] |}
      | (Raise exc, sent) =>
          {| returned := Ok tt; posted := sent; logged := [SendFailed exc] |}
      end
  end.

(** The handler [main] gives the watcher, [lambda e: docker_event_callback(e,
    discord_client)], on one item of a stream. *)
Definition handler (now : float) (discord_client : Discord.DiscordClient)
           (post : Discord.post_outcome) (raw_event : value) : handler_outcome :=
  match returned (docker_event_callback now raw_event discord_client post) with
  | Ok _ => Returns
  | Raise e => Raises e
  end.

(** A raw event as it reaches the callback: the event, the wall clock at
    that time, and what [requests.post] does if it is called for it. *)
Definition arrival : Type := (value * float * Discord.post_outcome)%type.

Definition arrived (a : arrival) : value := fst (fst a).

(** A stream of raw events handled by [docker_event_callback], no [stop()]
    in between. *)
Definition handled (discord_client : Discord.DiscordClient)
           (arrivals : list arrival) : list (value * handler_outcome) :=
  map (fun a : arrival =>
         let '(raw_event, now, post) := a in
         (raw_event, handler now discord_client post raw_event))
      arrivals.

End Callback.

(** The exceptions [parse_event] raises on a list of raw events, in order. *)
Definition parser_faults (arrivals : list arrival) : list exn :=
  flat_map (fun a : arrival =>
              let '(raw_event, now, _) := a in
              match parse_event now raw_event with
              | Raise e => [e]
              | Ok _ => []
              end) arrivals.

End Main.

(* ================================================================== *)
(** ** moondock/config.py *)
(* ================================================================== *)

Module Config.

Fixpoint member (c : ascii) (chars : string) : bool :=
  match chars with
  | EmptyString => false
  | String c' rest => (c =? c')%char || member c rest
  end.

Fixpoint lstrip_chars (chars s : string) : string :=
  match s with
  | EmptyString => EmptyString
  | String c rest => if member c chars then lstrip_chars chars rest else s
  end.

(** [s.strip(chars)] *)
Definition strip_chars (chars s : string) : string :=
  reverse (lstrip_chars chars (reverse (lstrip_chars chars s))).

(** Iterating over a string gives its characters, one string each. *)
Definition characters (s : string) : list string :=
  map (fun c => String c EmptyString) (list_ascii_of_string s).

Definition _default_events : list string := ["die"; "oom"; "kill"; "restart"].

(** [CRITICAL_EVENTS], [env] being the environment variable of that name,
    if it is set. *)
Definition CRITICAL_EVENTS (env : option string) : list string :=
  let source :=
    match env with
    | Some text => text
    | None => String.concat "," _default_events
    end in
  map strip
      (filter (fun e => truthy (VStr (strip e)))
              (characters (strip_chars "," source))).

End Config.

(* ================================================================== *)
(** ** moondock/clients/docker_client.py *)
(* ================================================================== *)

Module DockerClient.

(** The constants the module imports from [config.py], and [cert_path],
    which the module computes from [DOCKER_CERT_PATH] with
    [os.path.normpath]. *)
Record environment : Type := {
  DOCKER_HOST : string;
  DOCKER_TLS_VERIFY : bool;
  DOCKER_CERT_PATH : string;
  cert_path : string
}.

(** The arguments of [docker.tls.TLSConfig]. *)
Record TLSConfig : Type := {
  client_cert : string * string;
  ca_cert : string;
  verify : bool
}.

(** [tls_fault] is what the constructor [docker.tls.TLSConfig] raises, if it
    raises (it checks the certificate files). *)
Definition _build_tls_config (env : environment) (tls_fault : option exn)
  : result (option TLSConfig) :=
  if negb (DOCKER_TLS_VERIFY env) then Ok None
  else if negb (truthy (VStr (DOCKER_CERT_PATH env))) then Raise RuntimeError
  else
    match tls_fault with
    | Some e => Raise e
    | None =>
        Ok (Some {| client_cert := ((cert_path env ++ "/cert.pem")%string,
                                    (cert_path env ++ "/key.pem")%string);
                    ca_cert := (cert_path env ++ "/ca.pem")%string;
                    verify := true |})
    end.

(** The arguments of [docker.DockerClient]. *)
Record client : Type := {
  base_url : string;
  tls : option TLSConfig
}.

(** What [docker.DockerClient(...)] followed by [client.ping()] does. *)
Inductive connection : Type :=
| Connected
| ConnectRaises (e : exn).

(** [except DockerException]: [APIError] is a subclass of it. *)
Definition is_docker_exception (e : exn) : bool :=
  match e with
  | DockerException | APIError => true
  | _ => false
  end.

(** [init_docker]: what it returns or raises, and the client it has tried to
    connect, if it got that far. *)
Definition init_docker (env : environment) (tls_fault : option exn)
           (daemon : connection) : result client * option client :=
  let built :=
    if String.prefix "tcp://" (DOCKER_HOST env) then
      if DOCKER_TLS_VERIFY env then _build_tls_config env tls_fault else Ok None
    else Ok None in
  match built with
  | Raise e => (Raise e, None)
  | Ok tls_config =>
      let c := {| base_url := DOCKER_HOST env; tls := tls_config |} in
      match daemon with
      | Connected => (Ok c, Some c)
      | ConnectRaises e =>
          if is_docker_exception e then (Raise RuntimeError, Some c)
          else (Raise e, Some c)
      end
  end.

End DockerClient.

Import Parser Watcher Spec Examples.

(** Case analysis on the truth values an [or] chain tests. *)
Ltac or_cases :=
  unfold py_or; cbn [first_truthy];
  repeat match goal with
         | |- context [truthy ?v] =>
             is_var v;
             let H := fresh "Htruthy" in
             destruct (truthy v) eqn:H; rewrite ?H
         end;
  try reflexivity.


(* ================================================================== *)
(** ** Properties of the parser *)
(* ================================================================== *)

Section ParserFacts.

Variable now : float.

Lemma bind_ok {A B} (m : result A) (k : A -> result B) (b : B) :
  (x <- m ;; k x) = Ok b -> exists a, m = Ok a /\ k a = Ok b.
Proof.
  destruct m as [a | e]; simpl; intros H; [eauto | discriminate].
Qed.

Lemma bind_ret {A} (m : result A) : (x <- m ;; Ok x) = m.
Proof. destruct m; reflexivity. Qed.

Lemma truthy_string (s : string) : truthy (VStr s) = true -> s <> "".
Proof.
  simpl. intros H. apply String.eqb_neq. now apply negb_true_iff.
Qed.

(** A non-mapping input gives no event. *)
Lemma parse_event_non_mapping (v : value) :
  (forall d, v <> VDict d) -> parse_event now v = Ok None.
Proof.
  intros H. destruct v; try reflexivity. now elim (H entries).
Qed.

(** A mapping with a string type and no action gives no event. *)
Lemma parse_event_no_action (d : dict) (ty : string) :
  py_or (get d "Type") (py_or (get d "type") (VStr "unknown")) = VStr ty ->
  truthy (raw_action_of d) = false ->
  parse_event now (VDict d) = Ok None.
Proof.
  intros Hty Hact. unfold parse_event. rewrite Hty. simpl.
  unfold _normalize_action. rewrite Hact. reflexivity.
Qed.

(** [_normalize_action] returns on every value that can be hashed. *)
Lemma normalize_action_returns (v : value) :
  (forall items, v <> VList items) -> (forall entries, v <> VDict entries) ->
  exists act, _normalize_action v = Ok act.
Proof.
  intros Hlist Hdict. unfold _normalize_action.
  destruct (truthy v); cbn [negb]; [ | eauto ].
  destruct v as [ | b | n | x | s | items | entries ].
  1-4: cbn; eauto.
  - cbn [table_get bind].
    destruct (truthy (lookup _ACTION_NORMALIZATION s)); cbn; eauto.
  - now elim (Hlist items).
  - now elim (Hdict entries).
Qed.

(** Past the domain, the action and the timestamp, nothing is raised: the
    [try] block turns every fault into no event. *)
Lemma parse_event_returns (d : dict) (ty : string) (ts : float) :
  py_or (get d "Type") (py_or (get d "type") (VStr "unknown")) = VStr ty ->
  (forall items, raw_action_of d <> VList items) ->
  (forall entries, raw_action_of d <> VDict entries) ->
  _to_timestamp now (VDict d) = Ok ts ->
  exists r, parse_event now (VDict d) = Ok r.
Proof.
  intros Hty Hlist Hdict Hts. unfold parse_event. rewrite Hty. cbn [dot_lower bind].
  destruct (normalize_action_returns _ Hlist Hdict) as [act ->]. cbn [bind].
  destruct (truthy act); cbn [negb]; [ | eauto ].
  rewrite Hts. cbn [bind].
  match goal with
  | |- exists r, try_except ?body _ = Ok r => destruct body as [r | e]
  end; cbn; eauto.
Qed.

(** What an event [parse_event] returns is made of. *)
Lemma parse_event_inv (d : dict) (ev : NormalizedEvent) :
  parse_event now (VDict d) = Ok (Some ev) ->
  exists act ts attrs,
    _normalize_action (raw_action_of d) = Ok act /\
    truthy act = true /\
    _to_timestamp now (VDict d) = Ok ts /\
    _safe_get_actor_attributes d = Ok attrs /\
    action ev = act /\ timestamp ev = ts /\ attributes ev = attrs /\
    raw ev = d /\
    (domain ev = "container" ->
       id ev = py_or (py_or (get d "id")
                        (py_or (get d "ID")
                           (py_or (get attrs "container") (get attrs "id"))))
                     (VStr "<unknown>") /\
       name ev = py_or (get attrs "name") (py_or (get attrs "container") VNone) /\
       image ev = py_or (get attrs "image") (py_or (get attrs "image.name") VNone) /\
       exit_code ev = scan_exit_code attrs d ["exitCode"; "exit_code"; "exit"]).
Proof.
  unfold parse_event. intros H.
  apply bind_ok in H as (dom & _ & H).
  apply bind_ok in H as (act & Hact & H).
  destruct (truthy act) eqn:Htruthy; simpl in H; [ | discriminate ].
  apply bind_ok in H as (ts & Hts & H).
  exists act, ts.
  destruct (dom =? "container")%string eqn:Hdom.
  - unfold _extract_container_info in H.
    destruct (_safe_get_actor_attributes d) as [attrs | e]; simpl in H;
      [ | discriminate ].
    exists attrs. injection H as <-. simpl.
    repeat match goal with |- _ /\ _ => split end; auto.
  - destruct (_safe_get_actor_attributes d) as [attrs | e]; simpl in H;
      [ | discriminate ].
    exists attrs. injection H as <-. simpl.
    repeat match goal with |- _ /\ _ => split end; auto.
    intros Heq. rewrite Heq in Hdom. discriminate.
Qed.

End ParserFacts.

(** C1.  [parse_event] raises to its caller: the [.lower()] of a [Type]
    that is not a string is evaluated before the [try] block, so a mapping
    whose [Type] is the number 5 makes the call raise [AttributeError]
    instead of returning absent. *)
Theorem parse_event_raises_on_non_string_type :
  forall now : float,
    parse_event now (VDict [("Type", VInt 5); ("Action", VStr "die")])
    = Raise AttributeError.
Proof. intros now. reflexivity. Qed.

(** The table lookup, also before the [try] block, raises on an action that
    cannot be hashed. *)
Lemma parse_event_raises_on_unhashable_action :
  forall now : float,
    parse_event now (VDict [("Action", VList [VStr "die"])]) = Raise TypeError.
Proof. intros now. reflexivity. Qed.

(** So does the conversion of an integer [time] beyond the float range. *)
Lemma parse_event_raises_on_huge_time :
  forall now : float,
    parse_event now (VDict [("Action", VStr "die"); ("time", VInt (10 ^ 400))])
    = Raise OverflowError.
Proof. intros now. vm_compute. reflexivity. Qed.

(** *** Timestamps *)

(** C6, as stated, fails: the third rule as worded accepts any numeric
    [timestamp], so the chain would resolve this event to -5 seconds; the
    code wants the value positive and falls through to the wall clock. *)
Lemma timestamp_chain_as_specified_fails :
  _to_timestamp 1000 (VDict negative_timestamp_event) = Ok 1000%float /\
  first_satisfied 1000 (chain_as_specified negative_timestamp_event)
    = Ok (-5)%float /\
  _to_timestamp 1000 (VDict negative_timestamp_event)
    <> first_satisfied 1000 (chain_as_specified negative_timestamp_event).
Proof.
  split; [ reflexivity | split; [ reflexivity | ] ].
  intros H.
  assert (Hpos : (fun r => match r with Ok x => (0 <? x)%float | Raise _ => false end)
                   (_to_timestamp 1000 (VDict negative_timestamp_event)) = true)
    by reflexivity.
  rewrite H in Hpos. vm_compute in Hpos. discriminate.
Qed.

(** C6, amended.  For every raw event mapping the timestamp is resolved by
    the first satisfied rule of the chain: a numeric, positive [time], as
    seconds; else a numeric, positive [timeNano], divided by 1e9; else a
    numeric, positive [timestamp] ([timeStamp] when [timestamp] is absent or
    falsy), as seconds; else the wall clock.  The event returned carries that
    timestamp. *)
Theorem timestamp_first_satisfied_rule :
  forall (now : float) (raw : dict),
    _to_timestamp now (VDict raw) = first_satisfied now (chain raw) /\
    (forall ev : NormalizedEvent,
        parse_event now (VDict raw) = Ok (Some ev) ->
        first_satisfied now (chain raw) = Ok (timestamp ev)).
Proof.
  intros now raw.
  assert (Hchain : _to_timestamp now (VDict raw) = first_satisfied now (chain raw)).
  { unfold _to_timestamp, chain, first_satisfied, satisfied.
    cbn [is_none dot_get bind candidate positive_only convert implb].
    destruct (is_number (get raw "time") && positive (get raw "time")).
    - unfold seconds. now rewrite bind_ret.
    - destruct (is_number (get raw "timeNano") && positive (get raw "timeNano")).
      + reflexivity.
      + destruct (is_number (py_or (get raw "timestamp") (get raw "timeStamp"))
                  && positive (py_or (get raw "timestamp") (get raw "timeStamp"))).
        * unfold seconds. now rewrite bind_ret.
        * reflexivity. }
  split; [ exact Hchain | ].
  intros ev H. apply parse_event_inv in H as (act & ts & attrs & H).
  destruct H as (_ & _ & Hts & _ & _ & <- & _).
  now rewrite <- Hchain.
Qed.

Lemma timestamp_first_satisfied_rule_witness :
  parse_event 0 (VDict die_event) = Ok (Some die_normalized) /\
  first_satisfied 0 (chain die_event) = Ok 1700000000%float.
Proof.
  split; [ reflexivity | ].
  exact (proj2 (timestamp_first_satisfied_rule 0 die_event) die_normalized eq_refl).
Defined.

(** A float [time] is kept as it is, fraction included. *)
Lemma fractional_time_kept :
  forall now : float,
    _to_timestamp now (VDict [("time", VFloat 1.5)]) = Ok 1.5%float.
Proof. intros now. reflexivity. Qed.

(** With [time] numeric and positive, [timeNano] is not looked at. *)
Lemma time_wins (now : float) (raw : dict) :
  is_number (get raw "time") = true -> positive (get raw "time") = true ->
  _to_timestamp now (VDict raw) = to_float (get raw "time").
Proof.
  intros Hn Hp. unfold _to_timestamp. simpl. now rewrite Hn, Hp.
Qed.

(** With no [time] and a positive integer [timeNano] within the float range,
    the result is [timeNano / 1e9]. *)
Lemma only_time_nano (now : float) (raw : dict) (n : Z) :
  get raw "time" = VNone -> get raw "timeNano" = VInt n -> 0 < n ->
  PrimFloat.is_infinity (float_of_Z n) = false ->
  _to_timestamp now (VDict raw) = Ok (float_of_Z n / 1e9)%float.
Proof.
  intros Ht Hn Hpos Hfin. unfold _to_timestamp. simpl. rewrite Ht, Hn. simpl.
  apply Z.ltb_lt in Hpos. rewrite Hpos. simpl. now rewrite Hfin.
Qed.

(** *** Container fields *)

(** The loop over the three keys is a search for the first value [int]
    accepts, each key read from the attributes, or from the top level when
    the attribute is absent. *)
Lemma scan_exit_code_per_key (attrs raw : dict) (keys : list string) :
  scan_exit_code attrs raw keys = first_int (map (per_key attrs raw) keys).
Proof.
  induction keys as [ | key keys IH ]; [ reflexivity | ].
  cbn [scan_exit_code map first_int]. unfold per_key at 1.
  destruct (is_none (get attrs key)) eqn:Hattr.
  - destruct (is_none (get raw key)) eqn:Hraw.
    + destruct (get raw key); try discriminate. exact IH.
    + destruct (Py.int (get raw key)); [ reflexivity | exact IH ].
  - rewrite Hattr.
    destruct (Py.int (get attrs key)); [ reflexivity | exact IH ].
Qed.

Lemma or_chain_first_truthy (a b : value) :
  py_or a (py_or b VNone) = first_truthy [a; b].
Proof. or_cases. Qed.

Lemma or_chain_with_default (a b c d : value) (s : string) :
  s <> "" ->
  py_or (py_or a (py_or b (py_or c d))) (VStr s) = first_truthy [a; b; c; d; VStr s].
Proof.
  intros Hs. apply String.eqb_neq in Hs.
  or_cases; simpl; rewrite Hs; reflexivity.
Qed.

(** C7, as stated, fails: scanning the three attribute keys before the
    top-level ones would find [exit = "1"] first; the code reads the
    top-level [exitCode] as soon as the attribute [exitCode] is absent and
    returns 2. *)
Lemma exit_code_as_specified_fails :
  exists ev,
    parse_event 0 (VDict mixed_exit_event) = Ok (Some ev) /\
    domain ev = "container" /\
    exit_code ev = Some 2 /\
    exit_code_as_specified (attributes ev) mixed_exit_event = Some 1 /\
    exit_code ev <> exit_code_as_specified (attributes ev) mixed_exit_event.
Proof.
  eexists. split; [ reflexivity | ].
  repeat split; discriminate.
Qed.

(** C7, amended.  For every returned event whose domain is "container":
    [attributes] are the actor attributes; [id] is the first truthy of the
    top-level [id], [ID] and the attributes [container], [id], else
    "<unknown>"; [name] the first truthy of the attributes [name],
    [container]; [image] the first truthy of the attributes [image],
    [image.name]; [exit_code] the first value [int] accepts, scanning the
    keys [exitCode], [exit_code], [exit] in order and reading each from the
    attributes, or from the top level when the attribute is absent. *)
Theorem container_fields :
  forall (now : float) (raw : dict) (ev : NormalizedEvent),
    parse_event now (VDict raw) = Ok (Some ev) ->
    domain ev = "container" ->
    let attrs := attributes ev in
    _safe_get_actor_attributes raw = Ok attrs /\
    id ev = first_truthy [ get raw "id"; get raw "ID";
                           get attrs "container"; get attrs "id";
                           VStr "<unknown>" ] /\
    name ev = first_truthy [ get attrs "name"; get attrs "container" ] /\
    image ev = first_truthy [ get attrs "image"; get attrs "image.name" ] /\
    exit_code ev = exit_code_per_key attrs raw.
Proof.
  intros now raw ev H Hdom.
  apply parse_event_inv in H as (act & ts & attrs & H).
  destruct H as (_ & _ & _ & Hattrs & _ & _ & <- & _ & Hfields).
  destruct (Hfields Hdom) as (Hid & Hname & Himage & Hexit).
  cbv zeta. split; [ exact Hattrs | ].
  split.
  - rewrite Hid. now apply or_chain_with_default.
  - split; [ | split ].
    + rewrite Hname. apply or_chain_first_truthy.
    + rewrite Himage. apply or_chain_first_truthy.
    + rewrite Hexit. apply scan_exit_code_per_key.
Qed.

(** The "die" event normalizes to domain "container", action "die", exit
    code 137, name and image from the attributes. *)
Lemma die_event_normalized :
  forall now : float, parse_event now (VDict die_event) = Ok (Some die_normalized).
Proof. intros now. reflexivity. Qed.

Lemma container_fields_witness :
  parse_event 0 (VDict die_event) = Ok (Some die_normalized) /\
  domain die_normalized = "container" /\
  exit_code die_normalized = exit_code_per_key (attributes die_normalized) die_event /\
  exit_code_per_key (attributes die_normalized) die_event = Some 137.
Proof.
  split; [ reflexivity | ].
  split; [ reflexivity | ].
  split; [ | reflexivity ].
  apply (container_fields 0 die_event die_normalized); reflexivity.
Defined.

(** *** The action of a returned event *)

(** Every entry of the table maps to a non-empty name. *)
Lemma lookup_known (s v : string) :
  lookup _ACTION_NORMALIZATION s = VStr v -> v <> "".
Proof.
  unfold _ACTION_NORMALIZATION. cbn [lookup].
  repeat match goal with
         | |- context [(?k =? s)%string] => destruct (k =? s)%string
         end;
    intros H; try discriminate; injection H as <-; discriminate.
Qed.

Lemma lookup_shape (table : list (string * string)) (s : string) :
  lookup table s = VNone \/ exists v, lookup table s = VStr v.
Proof.
  induction table as [ | [k v] table IH ]; simpl; [ now left | ].
  destruct (k =? s)%string; [ right; eauto | exact IH ].
Qed.

(** [_normalize_action] on a string. *)
Lemma normalize_action_string (s : string) :
  _normalize_action (VStr s)
  = Ok (if (s =? "")%string then VNone else VStr (normalized_verb s)).
Proof.
  unfold _normalize_action, normalized_verb. cbn [truthy table_get bind].
  destruct (s =? "")%string; [ reflexivity | ]. cbn [negb].
  destruct (lookup_shape _ACTION_NORMALIZATION s) as [Hnone | [v Hv]].
  - rewrite Hnone. reflexivity.
  - rewrite Hv. pose proof (lookup_known s v Hv) as Hne.
    apply String.eqb_neq in Hne. cbn [truthy]. rewrite Hne. reflexivity.
Qed.

(** [_normalize_action] on a value that is not a string: a falsy one gives
    [None], a list or a dict raises, any other comes back as it is. *)
Lemma normalize_action_other (v : value) (act : value) :
  (forall s, v <> VStr s) ->
  _normalize_action v = Ok act ->
  act = if truthy v then v else VNone.
Proof.
  intros Hv. unfold _normalize_action.
  destruct v; cbn [truthy]; try (now elim (Hv s)).
  - cbn. now intros [= <-].
  - destruct b; cbn; now intros [= <-].
  - destruct (n =? 0); cbn; now intros [= <-].
  - destruct (x =? 0)%float; cbn; now intros [= <-].
  - destruct items; cbn; [ now intros [= <-] | discriminate ].
  - destruct entries; cbn; [ now intros [= <-] | discriminate ].
Qed.

(** C8, as stated, fails: a mapping whose [Action] is the number 5 is
    normalized to an event whose action is the number 5, not a string. *)
Lemma action_not_a_string :
  exists ev,
    parse_event 0 (VDict [("Action", VInt 5)]) = Ok (Some ev) /\
    action ev = VInt 5 /\
    is_nonempty_string (action ev) = false.
Proof.
  eexists. split; [ reflexivity | ]. split; reflexivity.
Qed.

(** C8, amended.  Whenever the normalizer returns an event, the event's
    action is truthy.  When the resolved raw action is a string, the action
    is a non-empty string: the table's name for a known verb, any other
    string trimmed and lower-cased.  When the resolved raw action is not a
    string, the action is that value, unchanged. *)
Theorem returned_action :
  forall (now : float) (raw : dict) (ev : NormalizedEvent),
    parse_event now (VDict raw) = Ok (Some ev) ->
    truthy (action ev) = true /\
    match raw_action_of raw with
    | VStr s =>
        action ev = VStr (normalized_verb s) /\
        is_nonempty_string (action ev) = true
    | v => action ev = v
    end.
Proof.
  intros now raw ev H.
  apply parse_event_inv in H as (act & ts & attrs & H).
  destruct H as (Hact & Htruthy & _ & _ & <- & _).
  split; [ exact Htruthy | ].
  destruct (raw_action_of raw) as [ | b | n | x | s | items | entries ] eqn:Hraw.
  5: {
    rewrite normalize_action_string in Hact.
    destruct (s =? "")%string.
    - injection Hact as Hact. rewrite <- Hact in Htruthy. discriminate.
    - injection Hact as Hact. rewrite <- Hact in *. split; [ reflexivity | ].
      exact Htruthy.
  }
  all: apply normalize_action_other in Hact; [ | intros s; discriminate ].
  all: match type of Hact with
       | _ = (if ?c then _ else _) => destruct c eqn:Hv
       end; [ exact Hact | rewrite Hact in Htruthy; discriminate ].
Qed.

Lemma returned_action_witness :
  parse_event 0 (VDict die_event) = Ok (Some die_normalized) /\
  truthy (action die_normalized) = true /\
  action die_normalized = VStr (normalized_verb "die") /\
  is_nonempty_string (action die_normalized) = true.
Proof.
  split; [ reflexivity | ].
  exact (returned_action 0 die_event die_normalized eq_refl).
Defined.

(* ================================================================== *)
(** ** Properties of the watcher *)
(* ================================================================== *)

Section WatcherFacts.

Variable cfg : config.

Lemma prepend_app (tr1 tr2 : list event) (o : outcome) :
  prepend tr1 (prepend tr2 o) = prepend (tr1 ++ tr2) o.
Proof.
  destruct o as [[tr flag] s]. simpl. now rewrite app_assoc.
Qed.

Lemma trace_of_prepend (tr : list event) (o : outcome) :
  trace_of (prepend tr o) = tr ++ trace_of o.
Proof. destruct o as [[tr' flag] s]. reflexivity. Qed.

Lemma status_of_prepend (tr : list event) (o : outcome) :
  status_of (prepend tr o) = status_of o.
Proof. destruct o as [[tr' flag] s]. reflexivity. Qed.

Lemma flag_of_prepend (tr : list event) (o : outcome) :
  flag_of (prepend tr o) = flag_of o.
Proof. destruct o as [[tr' flag] s]. reflexivity. Qed.

Lemma sleeps_app (tr1 tr2 : list event) :
  sleeps (tr1 ++ tr2) = sleeps tr1 ++ sleeps tr2.
Proof.
  induction tr1 as [ | ev tr1 IH ]; [ reflexivity | ].
  destruct ev; simpl; now rewrite IH.
Qed.

Lemma opens_app (tr1 tr2 : list event) :
  opens (tr1 ++ tr2) = (opens tr1 + opens tr2)%nat.
Proof.
  induction tr1 as [ | ev tr1 IH ]; [ reflexivity | ].
  destruct ev; simpl; now rewrite IH.
Qed.

(** The handler's calls contain no sleep and no opening of the stream. *)
Lemma sleeps_calls (items : list (value * handler_outcome)) :
  sleeps (calls items) = [].
Proof.
  induction items as [ | [raw_event h] items IH ]; [ reflexivity | ].
  unfold calls in *. simpl. rewrite sleeps_app, IH.
  destruct h; reflexivity.
Qed.

Lemma opens_calls (items : list (value * handler_outcome)) :
  opens (calls items) = 0%nat.
Proof.
  induction items as [ | [raw_event h] items IH ]; [ reflexivity | ].
  unfold calls in *. simpl. rewrite opens_app, IH. destruct h; reflexivity.
Qed.

(** Once the flag is set the loop ends at its next test, whatever the
    daemon would have done. *)
Lemma loop_stop_set (st : loop_state) (sc : script) :
  loop cfg st true sc = ([Stopped], true, STOPPED).
Proof. destruct sc; reflexivity. Qed.

(** The flag is never cleared by the loop. *)
Lemma consume_flag (steps : list stream_step) (flag : bool) :
  flag = true -> snd (fst (consume flag steps)) = true.
Proof.
  revert flag. induction steps as [ | step steps IH ]; intros flag ->.
  - reflexivity.
  - destruct step; simpl; [ reflexivity | now apply IH ].
Qed.

(** With no [stop()] in between, every item is handed to the handler, in
    order, whatever the handler does with each. *)
Lemma consume_yields (items : list (value * handler_outcome))
      (rest : list stream_step) :
  consume false (yields items ++ rest)
  = (let '(tr, flag, how) := consume false rest in (calls items ++ tr, flag, how)).
Proof.
  induction items as [ | [raw_event h] items IH ].
  - simpl. now destruct (consume false rest) as [[tr flag] how].
  - unfold yields, calls in *. cbn [map flat_map app consume fst snd].
    rewrite IH. destruct (consume false rest) as [[tr flag] how].
    now rewrite app_assoc.
Qed.

Lemma consume_yields_all (items : list (value * handler_outcome)) :
  consume false (yields items) = (calls items, false, Exhausted).
Proof.
  rewrite <- (app_nil_r (yields items)), consume_yields. simpl.
  now rewrite app_nil_r.
Qed.

(** A sleep the interpreter accepts and the operating system carries out. *)
Lemma back_off_accepted (st : loop_state) (logged : list event) (counted : Z) :
  Py.refusal (backoff st) = None ->
  back_off cfg st logged counted None
  = (logged ++ [Slept (backoff st)],
     Continue {| retries := counted; backoff := escalate cfg (backoff st) |}).
Proof.
  intros Hvalid. unfold back_off, Py.sleep. now rewrite Hvalid.
Qed.


(** A stream error within the ceiling: sleep the current backoff, then
    escalate it, and count the retry. *)
Lemma handle_stream_error (st : loop_state) (e : exn) :
  is_stream_error e = true ->
  match max_retries cfg with
  | Some ceiling => retries st + 1 <= ceiling
  | None => True
  end ->
  Py.refusal (backoff st) = None ->
  handle_error cfg st e None
  = ([StreamError e; Reconnecting (backoff st) (retries st + 1); Slept (backoff st)],
     Continue {| retries := retries st + 1; backoff := escalate cfg (backoff st) |}).
Proof.
  intros He Hceiling Hvalid. unfold handle_error.
  rewrite He, back_off_accepted by exact Hvalid.
  destruct (max_retries cfg) as [ceiling | ]; [ | reflexivity ].
  apply Z.ltb_ge in Hceiling. now rewrite Hceiling.
Qed.

(** A stream error beyond the ceiling: a critical record and a [break]. *)
Lemma handle_stream_error_beyond (st : loop_state) (e : exn) (os : option exn)
      (ceiling : Z) :
  is_stream_error e = true ->
  max_retries cfg = Some ceiling ->
  ceiling < retries st + 1 ->
  handle_error cfg st e os = ([StreamError e; Critical ceiling], Leave).
Proof.
  intros He Hmax Hceiling. unfold handle_error. rewrite He, Hmax.
  apply Z.ltb_lt in Hceiling. now rewrite Hceiling.
Qed.

(** Any other error: sleep the current backoff, escalate it, and leave the
    retry counter alone; the ceiling is not looked at. *)
Lemma handle_other_error (st : loop_state) (e : exn) :
  is_stream_error e = false ->
  Py.refusal (backoff st) = None ->
  handle_error cfg st e None
  = ([Unexpected e; Slept (backoff st)],
     Continue {| retries := retries st; backoff := escalate cfg (backoff st) |}).
Proof.
  intros He Hvalid. unfold handle_error.
  now rewrite He, back_off_accepted by exact Hvalid.
Qed.

(** The end of the stream, followed by a sleep that is carried out. *)
Lemma handle_closed_accepted (st : loop_state) :
  Py.refusal (backoff st) = None ->
  handle_closed cfg st [] = ([ClosedUnexpectedly; Slept (backoff st)], Continue st).
Proof.
  intros Hvalid. unfold handle_closed, Py.sleep. now rewrite Hvalid.
Qed.

(** The loop over one call of [client.events]. *)
Lemma loop_attempt (st : loop_state) (item : script_item) (a : attempt)
      (listed : list exn) (rest : script) :
  item = Connect a /\ listed = [] \/ item = Refusing a listed ->
  loop cfg st false (item :: rest)
  = match pass cfg st a listed with
    | (tr, flag, Continue st') => prepend (Opening :: tr) (loop cfg st' flag rest)
    | (tr, flag, Leave) => (Opening :: tr ++ [Stopped], flag, STOPPED)
    | (tr, flag, Escape e) => (Opening :: tr, flag, RAISED e)
    end.
Proof. intros [[-> ->] | ->]; reflexivity. Qed.

Lemma loop_pass (st : loop_state) (a : attempt) (rest : script) :
  loop cfg st false (Connect a :: rest)
  = match pass cfg st a [] with
    | (tr, flag, Continue st') => prepend (Opening :: tr) (loop cfg st' flag rest)
    | (tr, flag, Leave) => (Opening :: tr ++ [Stopped], flag, STOPPED)
    | (tr, flag, Escape e) => (Opening :: tr, flag, RAISED e)
    end.
Proof. reflexivity. Qed.

(** The loop over a call of [client.events] that raises. *)
Lemma loop_open_raises (st : loop_state) (e : exn) (rest : script) :
  loop cfg st false (Connect (OpenRaises e) :: rest)
  = match handle_error cfg st e None with
    | (tr, Continue st') => prepend (Opening :: tr) (loop cfg st' false rest)
    | (tr, Leave) => (Opening :: tr ++ [Stopped], false, STOPPED)
    | (tr, Escape e') => (Opening :: tr, false, RAISED e')
    end.
Proof.
  rewrite loop_pass. cbn [pass nth_error].
  now destruct (handle_error cfg st e None) as [tr [st' | | e']].
Qed.

(** The loop over a stream that yields its items, no [stop()] in between,
    and ends. *)
Lemma loop_opened_yields (st : loop_state)
      (items : list (value * handler_outcome)) (fin : stream_end) (rest : script) :
  loop cfg st false (Connect (Opened (yields items) fin) :: rest)
  = match
      match fin with
      | Closed => handle_closed cfg (after_open cfg) []
      | Broken e => handle_error cfg (after_open cfg) e None
      end
    with
    | (tr, Continue st') =>
        prepend (Opening :: calls items ++ tr) (loop cfg st' false rest)
    | (tr, Leave) => (Opening :: (calls items ++ tr) ++ [Stopped], false, STOPPED)
    | (tr, Escape e') => (Opening :: calls items ++ tr, false, RAISED e')
    end.
Proof.
  rewrite loop_pass. cbn [pass nth_error]. rewrite consume_yields_all.
  destruct fin as [ | e ].
  - now destruct (handle_closed cfg (after_open cfg) []) as [tr [st' | | e']].
  - now destruct (handle_error cfg (after_open cfg) e None) as [tr [st' | | e']].
Qed.

(** The trace of a pass starts with what the [for] loop did, and the trace
    of the loop with the trace of its first pass. *)
Lemma pass_opened_trace (st : loop_state) (steps : list stream_step)
      (fin : stream_end) (listed : list exn) :
  exists tail,
    fst (fst (pass cfg st (Opened steps fin) listed))
    = fst (fst (consume false steps)) ++ tail.
Proof.
  cbn [pass]. destruct (consume false steps) as [[tr flag] how].
  destruct how; [ | exists []; cbn; now rewrite app_nil_r ].
  destruct fin as [ | e ].
  - destruct flag; [ exists []; cbn; now rewrite app_nil_r | ].
    destruct (handle_closed cfg (after_open cfg) listed) as [tr' nxt].
    now exists tr'.
  - destruct (handle_error cfg (after_open cfg) e (nth_error listed 0)) as [tr' nxt].
    now exists tr'.
Qed.

Lemma loop_pass_trace (st : loop_state) (a : attempt) (rest : script) :
  exists tail,
    trace_of (loop cfg st false (Connect a :: rest))
    = Opening :: fst (fst (pass cfg st a [])) ++ tail.
Proof.
  rewrite loop_pass. destruct (pass cfg st a []) as [[tr flag] [st' | | e]].
  - rewrite trace_of_prepend. now exists (trace_of (loop cfg st' flag rest)).
  - now exists [Stopped].
  - exists []. cbn. now rewrite app_nil_r.
Qed.

End WatcherFacts.

(** *** Backoff *)

Lemma within_step (ceiling : option Z) (r : Z) (n : nat) :
  within ceiling r (S n) -> within ceiling r 1 /\ within ceiling (r + 1) n.
Proof.
  unfold within. destruct ceiling as [c | ]; [ lia | auto ].
Qed.

Lemma within_ceiling (cfg : config) (st : loop_state) :
  within (max_retries cfg) (retries st) 1 ->
  match max_retries cfg with
  | Some ceiling => retries st + 1 <= ceiling
  | None => True
  end.
Proof.
  unfold within. destruct (max_retries cfg); [ intros H; exact H | auto ].
Qed.

Lemma escalate_doubling_capped (ceiling : option Z) (k : nat) :
  escalate (example_config ceiling) (doubling_capped k) = doubling_capped (S k).
Proof. destruct k as [ | [ | [ | k ] ] ]; reflexivity. Qed.

(** The sleeps of the example are durations [time.sleep] accepts. *)
Lemma doubling_capped_accepted (k : nat) : Py.refusal (doubling_capped k) = None.
Proof. destruct k as [ | [ | [ | k ] ] ]; reflexivity. Qed.

(** [n] consecutive stream errors from the [k]-th step of the sequence on. *)
Lemma sleeps_of_failures (ceiling : option Z) (e : exn) (n : nat) :
  is_stream_error e = true ->
  forall (k : nat) (r : Z) (rest : script),
    within ceiling r n ->
    sleeps (trace_of (loop (example_config ceiling)
                        {| retries := r; backoff := doubling_capped k |}
                        false (failures e n ++ rest)))
    = map doubling_capped (seq k n)
      ++ sleeps (trace_of (loop (example_config ceiling)
                             {| retries := r + Z.of_nat n;
                                backoff := doubling_capped (k + n) |}
                             false rest)).
Proof.
  intros He. induction n as [ | n IH ]; intros k r rest Hwithin.
  - simpl. now rewrite Z.add_0_r, Nat.add_0_r.
  - apply within_step in Hwithin as [Hone Hmore].
    cbn [failures repeat app]. rewrite loop_open_raises.
    rewrite handle_stream_error.
    2: exact He.
    2: { unfold within in Hone. cbn [max_retries example_config retries].
         destruct ceiling; [ exact Hone | exact I ]. }
    2: apply doubling_capped_accepted.
    rewrite trace_of_prepend. cbn [sleeps app retries backoff].
    rewrite escalate_doubling_capped.
    change (repeat (Connect (OpenRaises e)) n) with (failures e n).
    rewrite IH by exact Hmore. cbn [seq map]. do 3 f_equal.
    replace (r + 1 + Z.of_nat n) with (r + Z.of_nat (S n)) by lia.
    now rewrite Nat.add_succ_r.
Qed.

(** C2.  A connection error within the ceiling, raised by the opening of the
    stream or by the reading of it, is followed by a sleep of the current
    backoff (a duration [time.sleep] accepts), after which the backoff is
    [min(current * factor, max)].  After every successful open the retry
    counter is 0 and the backoff the configured initial value, whatever they
    were before: the sleep that follows the stream is of the initial
    backoff, and the loop goes on from retries 1 and the initial backoff
    escalated once after a broken stream, from retries 0 and the initial
    backoff after a closed one.  With initial 1, factor 2 and cap 5 the
    sleeps under consecutive connection errors (as many as the ceiling
    allows, if there is one) are 1, 2, 4, 5, 5, 5, ... and start again at 1
    after a successful connection. *)
Theorem backoff_escalation_and_reset :
  forall e : exn,
    is_stream_error e = true ->
    (forall (cfg : config) (st : loop_state) (rest : script),
        within (max_retries cfg) (retries st) 1 ->
        Py.refusal (backoff st) = None ->
        loop cfg st false (Connect (OpenRaises e) :: rest)
        = prepend [ Opening; StreamError e;
                    Reconnecting (backoff st) (retries st + 1);
                    Slept (backoff st) ]
            (loop cfg
               {| retries := retries st + 1;
                  backoff := Py.min (backoff st * backoff_factor cfg)%float
                                    (max_backoff cfg) |}
               false rest)) /\
    (forall (cfg : config) (st : loop_state)
            (items : list (value * handler_outcome)) (rest : script),
        within (max_retries cfg) 0 1 ->
        Py.refusal (initial_backoff cfg) = None ->
        loop cfg st false (Connect (Opened (yields items) (Broken e)) :: rest)
        = prepend (Opening :: calls items
                     ++ [ StreamError e;
                          Reconnecting (initial_backoff cfg) 1;
                          Slept (initial_backoff cfg) ])
            (loop cfg
               {| retries := 1;
                  backoff := Py.min (initial_backoff cfg * backoff_factor cfg)%float
                                    (max_backoff cfg) |}
               false rest)) /\
    (forall (cfg : config) (st : loop_state)
            (items : list (value * handler_outcome)) (rest : script),
        Py.refusal (initial_backoff cfg) = None ->
        loop cfg st false (Connect (Opened (yields items) Closed) :: rest)
        = prepend (Opening :: calls items
                     ++ [ ClosedUnexpectedly; Slept (initial_backoff cfg) ])
            (loop cfg {| retries := 0; backoff := initial_backoff cfg |}
               false rest)) /\
    (forall (ceiling : option Z) (n : nat),
        within ceiling 0 n ->
        sleeps (trace_of (_run (__init__ (example_config ceiling)) (failures e n)))
        = map doubling_capped (seq 0 n)) /\
    (forall (ceiling : option Z) (n m : nat)
            (items : list (value * handler_outcome)),
        within ceiling 0 n -> within ceiling 0 m ->
        sleeps (trace_of (_run (__init__ (example_config ceiling))
                            (failures e n
                               ++ Connect (Opened (yields items) Closed)
                               :: failures e m)))
        = map doubling_capped (seq 0 n) ++ 1%float :: map doubling_capped (seq 0 m)).
Proof.
  intros e He. split; [ | split; [ | split; [ | split ] ] ].
  - intros cfg st rest Hceiling Hvalid.
    rewrite loop_open_raises, handle_stream_error;
      [ reflexivity | exact He | now apply within_ceiling | exact Hvalid ].
  - intros cfg st items rest Hceiling Hvalid.
    rewrite loop_opened_yields, handle_stream_error;
      [ reflexivity | exact He | now apply within_ceiling | exact Hvalid ].
  - intros cfg st items rest Hvalid.
    rewrite loop_opened_yields, handle_closed_accepted by exact Hvalid.
    reflexivity.
  - intros ceiling n Hn. unfold _run, __init__.
    cbn [settings _stop_event initial_backoff example_config].
    rewrite <- (app_nil_r (failures e n)).
    change 1%float with (doubling_capped 0).
    rewrite (sleeps_of_failures ceiling) by assumption. simpl. apply app_nil_r.
  - intros ceiling n m items Hn Hm. unfold _run, __init__.
    cbn [settings _stop_event initial_backoff example_config].
    change 1%float with (doubling_capped 0) at 1.
    rewrite (sleeps_of_failures ceiling) by assumption. f_equal.
    rewrite loop_opened_yields, handle_closed_accepted by reflexivity.
    rewrite trace_of_prepend.
    rewrite sleeps_app. cbn [sleeps]. rewrite sleeps_app, sleeps_calls.
    cbn [app sleeps]. f_equal.
    rewrite <- (app_nil_r (failures e m)).
    change (after_open (example_config ceiling))
      with {| retries := 0; backoff := doubling_capped 0 |}.
    rewrite (sleeps_of_failures ceiling) by assumption. simpl. apply app_nil_r.
Qed.

Lemma backoff_escalation_and_reset_witness :
  is_stream_error OSError = true /\
  loop {| initial_backoff := 3; backoff_factor := 2; max_backoff := 10;
          max_retries := Some 2 |}
       {| retries := 2; backoff := 10 |} false
       [Connect (Opened (yields []) (Broken OSError))]
  = ([ Opening; StreamError OSError; Reconnecting 3 1; Slept 3 ], false,
     RUNNING {| retries := 1; backoff := 6 |}) /\
  loop {| initial_backoff := 3; backoff_factor := 2; max_backoff := 10;
          max_retries := Some 2 |}
       {| retries := 2; backoff := 10 |} false
       [Connect (Opened (yields []) Closed)]
  = ([ Opening; ClosedUnexpectedly; Slept 3 ], false,
     RUNNING {| retries := 0; backoff := 3 |}) /\
  sleeps (trace_of (_run (__init__ (example_config None)) (failures OSError 6)))
  = [1; 2; 4; 5; 5; 5]%float /\
  sleeps (trace_of (_run (__init__ (example_config None))
                      (failures OSError 4
                         ++ Connect (Opened (yields []) Closed)
                         :: failures OSError 2)))
  = [1; 2; 4; 5; 1; 1; 2]%float.
Proof.
  split; [ reflexivity | ].
  destruct (backoff_escalation_and_reset OSError eq_refl)
    as (_ & Hbroken & Hclosed & Hsequence & Hrestart).
  split; [ | split; [ | split ] ].
  - apply (Hbroken {| initial_backoff := 3; backoff_factor := 2; max_backoff := 10;
                      max_retries := Some 2 |}
                   {| retries := 2; backoff := 10 |} [] []).
    + simpl. lia.
    + reflexivity.
  - apply (Hclosed {| initial_backoff := 3; backoff_factor := 2; max_backoff := 10;
                      max_retries := Some 2 |}
                   {| retries := 2; backoff := 10 |} [] []).
    reflexivity.
  - exact (Hsequence None 6%nat I).
  - exact (Hrestart None 4%nat 2%nat [] I I).
Defined.

(** *** The retry ceiling *)

(** C3.  With a ceiling of 3, backoffs that [time.sleep] accepts and four
    consecutive connection errors, the retry counter goes 1, 2, 3, 4; after
    the fourth the loop logs the fatal condition and stops: the stream has
    been opened four times and whatever the daemon would have done next is
    not looked at. *)
Theorem retry_ceiling_stops_watcher :
  forall (cfg : config) (e1 e2 e3 e4 : exn) (rest : script),
    max_retries cfg = Some 3 ->
    is_stream_error e1 = true -> is_stream_error e2 = true ->
    is_stream_error e3 = true -> is_stream_error e4 = true ->
    let b0 := initial_backoff cfg in
    let b1 := escalate cfg b0 in
    let b2 := escalate cfg b1 in
    Py.refusal b0 = None -> Py.refusal b1 = None -> Py.refusal b2 = None ->
    let o := _run (__init__ cfg)
               (Connect (OpenRaises e1) :: Connect (OpenRaises e2)
                :: Connect (OpenRaises e3) :: Connect (OpenRaises e4) :: rest) in
    trace_of o
    = [ Opening; StreamError e1; Reconnecting b0 1; Slept b0;
        Opening; StreamError e2; Reconnecting b1 2; Slept b1;
        Opening; StreamError e3; Reconnecting b2 3; Slept b2;
        Opening; StreamError e4; Critical 3; Stopped ] /\
    status_of o = STOPPED /\
    opens (trace_of o) = 4%nat.
Proof.
  intros cfg e1 e2 e3 e4 rest Hmax H1 H2 H3 H4 b0 b1 b2 Hb0 Hb1 Hb2.
  unfold _run, __init__. cbn [settings _stop_event].
  rewrite loop_open_raises, (handle_stream_error cfg _ e1 H1);
    [ | rewrite Hmax; cbn; lia | exact Hb0 ].
  rewrite loop_open_raises, (handle_stream_error cfg _ e2 H2);
    [ | rewrite Hmax; cbn; lia | exact Hb1 ].
  rewrite loop_open_raises, (handle_stream_error cfg _ e3 H3);
    [ | rewrite Hmax; cbn; lia | exact Hb2 ].
  rewrite loop_open_raises,
    (handle_stream_error_beyond cfg _ e4 None 3 H4 Hmax) by (cbn; lia).
  cbn. repeat split; reflexivity.
Qed.

Lemma retry_ceiling_stops_watcher_witness :
  max_retries ceiling_config = Some 3 /\
  is_stream_error OSError = true /\
  Py.refusal 1 = None /\ Py.refusal 2 = None /\ Py.refusal 4 = None /\
  let o := _run (__init__ ceiling_config) (failures OSError 5) in
  trace_of o
  = [ Opening; StreamError OSError; Reconnecting 1 1; Slept 1;
      Opening; StreamError OSError; Reconnecting 2 2; Slept 2;
      Opening; StreamError OSError; Reconnecting 4 3; Slept 4;
      Opening; StreamError OSError; Critical 3; Stopped ] /\
  status_of o = STOPPED /\
  opens (trace_of o) = 4%nat.
Proof.
  split; [ reflexivity | ].
  split; [ reflexivity | ].
  split; [ reflexivity | ].
  split; [ reflexivity | ].
  split; [ reflexivity | ].
  exact (retry_ceiling_stops_watcher ceiling_config OSError OSError OSError OSError
           (failures OSError 1) eq_refl eq_refl eq_refl eq_refl eq_refl
           eq_refl eq_refl eq_refl).
Defined.

(** *** Unclassified errors *)

(** C4, as stated, fails: with a ceiling of 3, five consecutive unclassified
    errors leave the retry counter at 0 and the watcher running, the stream
    opened five times; five connection errors stop it at the fourth. *)
Lemma unclassified_errors_not_counted :
  let o := _run (__init__ ceiling_config) (failures RuntimeError 5) in
  let o' := _run (__init__ ceiling_config) (failures OSError 5) in
  opens (trace_of o) = 5%nat /\
  status_of o = RUNNING {| retries := 0; backoff := 5 |} /\
  opens (trace_of o') = 4%nat /\
  status_of o' = STOPPED /\
  status_of o <> status_of o'.
Proof.
  repeat split; try reflexivity. discriminate.
Qed.

(** C4, amended.  An unclassified error, raised by the opening of the stream
    or by the reading of it, is treated like a connection error for backoff
    purposes: the loop sleeps the current backoff, when it is a duration
    [time.sleep] accepts, and escalates it.  The retry counter is left as it
    is and the ceiling is not consulted. *)
Theorem unclassified_error_backs_off :
  forall (cfg : config) (st : loop_state) (e : exn) (rest : script),
    is_stream_error e = false ->
    (Py.refusal (backoff st) = None ->
     loop cfg st false (Connect (OpenRaises e) :: rest)
     = prepend [ Opening; Unexpected e; Slept (backoff st) ]
         (loop cfg
            {| retries := retries st; backoff := escalate cfg (backoff st) |}
            false rest)) /\
    (Py.refusal (initial_backoff cfg) = None ->
     forall items : list (value * handler_outcome),
       loop cfg st false (Connect (Opened (yields items) (Broken e)) :: rest)
       = prepend (Opening :: calls items
                    ++ [ Unexpected e; Slept (initial_backoff cfg) ])
           (loop cfg
              {| retries := 0; backoff := escalate cfg (initial_backoff cfg) |}
              false rest)).
Proof.
  intros cfg st e rest He. split.
  - intros Hvalid.
    rewrite loop_open_raises, handle_other_error by assumption. reflexivity.
  - intros Hvalid items.
    rewrite loop_opened_yields, handle_other_error by assumption. reflexivity.
Qed.

Lemma unclassified_error_backs_off_witness :
  is_stream_error RuntimeError = false /\
  Py.refusal 4 = None /\
  loop ceiling_config {| retries := 3; backoff := 4 |} false
       [Connect (OpenRaises RuntimeError)]
  = ([ Opening; Unexpected RuntimeError; Slept 4 ], false,
     RUNNING {| retries := 3; backoff := 5 |}).
Proof.
  split; [ reflexivity | ].
  split; [ reflexivity | ].
  exact (proj1 (unclassified_error_backs_off ceiling_config
                  {| retries := 3; backoff := 4 |} RuntimeError [] eq_refl)
               eq_refl).
Defined.

(** *** Closure without error *)

(** C5.  When the stream ends without error and no [stop()] has been called,
    the loop sleeps the backoff it holds at that point (a duration
    [time.sleep] accepts) and connects again; the path after the stream's
    end changes neither the retry counter nor the backoff: the loop goes on
    with the locals it held when the stream ended. *)
Theorem closure_keeps_counters :
  forall (cfg : config) (st : loop_state)
         (items : list (value * handler_outcome)) (rest : script),
    Py.refusal (initial_backoff cfg) = None ->
    let held := after_open cfg in
    handle_closed cfg held [] = ([ClosedUnexpectedly; Slept (backoff held)],
                                 Continue held) /\
    loop cfg st false (Connect (Opened (yields items) Closed) :: rest)
    = prepend (Opening :: calls items
                 ++ [ClosedUnexpectedly; Slept (backoff held)])
        (loop cfg held false rest) /\
    opens (trace_of (loop cfg st false
                       [Connect (Opened (yields items) Closed);
                        Connect (Opened [] Closed)])) = 2%nat.
Proof.
  intros cfg st items rest Hvalid held.
  assert (Hclosed : handle_closed cfg held []
                    = ([ClosedUnexpectedly; Slept (backoff held)], Continue held))
    by now apply handle_closed_accepted.
  split; [ exact Hclosed | ]. split.
  - rewrite loop_opened_yields. fold held. now rewrite Hclosed.
  - rewrite loop_opened_yields. fold held. rewrite Hclosed.
    rewrite trace_of_prepend, opens_app. cbn [opens].
    rewrite opens_app, opens_calls.
    change (Opened [] Closed) with (Opened (yields []) Closed).
    rewrite (loop_opened_yields cfg held [] Closed []). fold held.
    rewrite Hclosed. reflexivity.
Qed.

Lemma closure_keeps_counters_witness :
  Py.refusal 1 = None /\
  loop ceiling_config {| retries := 2; backoff := 4 |} false
       [Connect (Opened (yields [(VInt 7, Returns)]) Closed)]
  = ([ Opening; Dispatched (VInt 7); ClosedUnexpectedly; Slept 1 ], false,
     RUNNING {| retries := 0; backoff := 1 |}).
Proof.
  split; [ reflexivity | ].
  exact (proj1 (proj2 (closure_keeps_counters ceiling_config
                         {| retries := 2; backoff := 4 |}
                         [(VInt 7, Returns)] [] eq_refl))).
Defined.

(** *** Handler faults *)

(** C9.  An exception raised by the handler on one item is caught and
    logged; the item yielded right after it is handed to the handler all the
    same, and the rest of the stream and of the loop goes on as it would
    have. *)
Theorem handler_fault_is_isolated :
  forall (cfg : config) (st : loop_state)
         (before : list (value * handler_outcome))
         (raw_k : value) (e : exn) (raw_next : value) (h : handler_outcome)
         (after : list stream_step),
    consume false (yields before ++ Yield raw_k (Raises e)
                                 :: Yield raw_next h :: after)
    = (let '(tr, flag, how) := consume false after in
       (calls before
          ++ [Dispatched raw_k; CallbackError e] ++ called raw_next h ++ tr,
        flag, how)) /\
    (forall (fin : stream_end) (rest : script),
        exists pre post,
          trace_of (loop cfg st false
                      (Connect (Opened (yields before
                                          ++ Yield raw_k (Raises e)
                                          :: Yield raw_next h :: after) fin)
                       :: rest))
          = pre ++ [Dispatched raw_k; CallbackError e; Dispatched raw_next] ++ post).
Proof.
  intros cfg st before raw_k e raw_next h after.
  assert (Hconsume :
    consume false (yields before ++ Yield raw_k (Raises e)
                                 :: Yield raw_next h :: after)
    = (let '(tr, flag, how) := consume false after in
       (calls before
          ++ [Dispatched raw_k; CallbackError e] ++ called raw_next h ++ tr,
        flag, how))).
  { rewrite consume_yields. cbn [consume called].
    destruct (consume false after) as [[tr flag] how]. reflexivity. }
  split; [ exact Hconsume | ].
  intros fin rest.
  destruct (loop_pass_trace cfg st
              (Opened (yields before ++ Yield raw_k (Raises e)
                                     :: Yield raw_next h :: after) fin) rest)
    as [tail ->].
  destruct (pass_opened_trace cfg st
              (yields before ++ Yield raw_k (Raises e)
                             :: Yield raw_next h :: after) fin [])
    as [tail' ->].
  rewrite Hconsume.
  destruct (consume false after) as [[tr flag] how]. cbn [fst].
  exists (Opening :: calls before).
  assert (Hcalled : exists more, called raw_next h = Dispatched raw_next :: more)
    by (destruct h; simpl; eauto).
  destruct Hcalled as [more ->].
  exists (more ++ tr ++ tail' ++ tail).
  cbn [app]. rewrite <- !app_assoc. cbn [app]. rewrite <- ?app_assoc.
  reflexivity.
Qed.

(** *** Single use *)

Lemma run_stop_set (w : watcher) (sc : script) :
  _stop_event w = true -> _run w sc = ([Stopped], true, STOPPED).
Proof.
  intros Hset. unfold _run. rewrite Hset. apply loop_stop_set.
Qed.

(** No method clears the flag. *)
Lemma perform_keeps_flag (w : watcher) (c : call) :
  _stop_event w = true -> _stop_event (fst (perform w c)) = true.
Proof.
  intros Hset. destruct c as [ | sc | is_alive sc ]; simpl.
  - reflexivity.
  - now rewrite run_stop_set.
  - unfold start_in_background.
    destruct (_worker w && is_alive); simpl; [ exact Hset | ].
    now rewrite run_stop_set.
Qed.

Lemma perform_all_keeps_flag (cs : list call) (w : watcher) :
  _stop_event w = true -> _stop_event (perform_all w cs) = true.
Proof.
  revert w. induction cs as [ | c cs IH ]; intros w Hset; [ exact Hset | ].
  simpl. apply IH. now apply perform_keeps_flag.
Qed.

(** C10.  After [stop()], whatever methods are called next, the flag stays
    set; [start_forever] then runs a loop that ends at its first test of the
    flag, and [start_in_background] either does the same or, the old thread
    being alive, starts nothing: the stream is not opened and the handler is
    not called. *)
Theorem stopped_watcher_is_single_use :
  forall (w0 : watcher) (cs : list call),
    let w := perform_all (stop w0) cs in
    _stop_event w = true /\
    (forall sc : script,
        _run w sc = ([Stopped], true, STOPPED) /\
        snd (start_forever w sc) = [Stopped]) /\
    (forall (is_alive : bool) (sc : script),
        snd (start_in_background w is_alive sc)
        = (if _worker w && is_alive then [AlreadyRunning] else [Stopped])) /\
    (forall c : call,
        opens (snd (perform w c)) = 0%nat /\
        dispatched (snd (perform w c)) = []).
Proof.
  intros w0 cs w.
  assert (Hset : _stop_event w = true)
    by (apply perform_all_keeps_flag; reflexivity).
  split; [ exact Hset | ].
  split; [ | split ].
  - intros sc. unfold start_forever. rewrite run_stop_set by exact Hset.
    split; reflexivity.
  - intros is_alive sc. unfold start_in_background.
    destruct (_worker w && is_alive); [ reflexivity | ].
    now rewrite run_stop_set.
  - intros c. destruct c as [ | sc | is_alive sc ]; simpl.
    + split; reflexivity.
    + rewrite run_stop_set by exact Hset. split; reflexivity.
    + unfold start_in_background.
      destruct (_worker w && is_alive); [ split; reflexivity | ].
      rewrite run_stop_set by exact Hset. split; reflexivity.
Qed.

(* ================================================================== *)
(** ** Further properties of the parser *)
(* ================================================================== *)

(** *** Strings *)

Import Traces.

Lemma lower_char_idempotent (c : ascii) : lower_char (lower_char c) = lower_char c.
Proof.
  destruct c as [b0 b1 b2 b3 b4 b5 b6 b7].
  destruct b0, b1, b2, b3, b4, b5, b6, b7; reflexivity.
Qed.

Lemma lower_char_space (c : ascii) : is_space (lower_char c) = is_space c.
Proof.
  destruct c as [b0 b1 b2 b3 b4 b5 b6 b7].
  destruct b0, b1, b2, b3, b4, b5, b6, b7; reflexivity.
Qed.

Lemma lower_idempotent (s : string) : lower (lower s) = lower s.
Proof.
  induction s as [ | c s IH ]; [ reflexivity | ].
  simpl. now rewrite lower_char_idempotent, IH.
Qed.

Lemma lstrip_drop_spaces (s : string) :
  list_ascii_of_string (lstrip s) = drop_spaces (list_ascii_of_string s).
Proof.
  induction s as [ | c s IH ]; [ reflexivity | ].
  simpl. destruct (is_space c); [ exact IH | reflexivity ].
Qed.

Lemma strip_drop_spaces (s : string) :
  list_ascii_of_string (strip s)
  = rev (drop_spaces (rev (drop_spaces (list_ascii_of_string s)))).
Proof.
  unfold strip, rstrip, reverse.
  now rewrite list_ascii_of_string_of_list_ascii, lstrip_drop_spaces,
    list_ascii_of_string_of_list_ascii, lstrip_drop_spaces.
Qed.

Lemma drop_spaces_last (l : list ascii) (c : ascii) :
  is_space c = false -> drop_spaces (l ++ [c]) = drop_spaces l ++ [c].
Proof.
  intros Hc. induction l as [ | c' l IH ]; simpl.
  - now rewrite Hc.
  - destruct (is_space c'); [ exact IH | reflexivity ].
Qed.

(** Dropping the blanks at the end keeps a first character that is not a
    blank. *)
Lemma drop_spaces_rev_head (l : list ascii) :
  drop_spaces (rev (drop_spaces (rev (drop_spaces l))))
  = rev (drop_spaces (rev (drop_spaces l))).
Proof.
  destruct (drop_spaces l) as [ | c m ] eqn:Hl; [ reflexivity | ].
  assert (Hc : is_space c = false).
  { clear -Hl. induction l as [ | c' l IH ]; [ discriminate | ].
    simpl in Hl. destruct (is_space c') eqn:Hc'; [ now apply IH | ].
    injection Hl as <- _. exact Hc'. }
  change (rev (c :: m)) with (rev m ++ [c]).
  rewrite drop_spaces_last by exact Hc.
  rewrite rev_app_distr. cbn [rev app drop_spaces]. now rewrite Hc.
Qed.

Lemma strip_idempotent (s : string) : strip (strip s) = strip s.
Proof.
  assert (H : list_ascii_of_string (strip (strip s)) = list_ascii_of_string (strip s)).
  { rewrite (strip_drop_spaces (strip s)), (strip_drop_spaces s).
    now rewrite drop_spaces_rev_head, rev_involutive, drop_spaces_rev_head. }
  rewrite <- (string_of_list_ascii_of_string (strip (strip s))), H.
  apply string_of_list_ascii_of_string.
Qed.

Lemma lower_as_map (s : string) :
  list_ascii_of_string (lower s) = map lower_char (list_ascii_of_string s).
Proof.
  induction s as [ | c s IH ]; [ reflexivity | ]. simpl. now rewrite IH.
Qed.

Lemma drop_spaces_lower (l : list ascii) :
  drop_spaces (map lower_char l) = map lower_char (drop_spaces l).
Proof.
  induction l as [ | c l IH ]; [ reflexivity | ].
  simpl. rewrite lower_char_space. destruct (is_space c); [ exact IH | reflexivity ].
Qed.

Lemma strip_lower (s : string) : strip (lower s) = lower (strip s).
Proof.
  assert (H : list_ascii_of_string (strip (lower s))
              = list_ascii_of_string (lower (strip s))).
  { rewrite strip_drop_spaces, lower_as_map, lower_as_map, strip_drop_spaces.
    now rewrite drop_spaces_lower, <- map_rev, drop_spaces_lower, <- map_rev. }
  rewrite <- (string_of_list_ascii_of_string (strip (lower s))), H.
  apply string_of_list_ascii_of_string.
Qed.

(** *** When the normalizer raises, and when it does not *)

Lemma normalize_action_raises (v : value) (e : exn) :
  _normalize_action v = Raise e ->
  e = TypeError /\
  ((exists items, v = VList items) \/ (exists entries, v = VDict entries)).
Proof.
  unfold _normalize_action.
  destruct (truthy v); cbn [negb]; [ | discriminate ].
  destruct v as [ | b | n | x | s | items | entries ];
    cbn [table_get bind]; try (cbn; discriminate).
  - destruct (truthy (lookup _ACTION_NORMALIZATION s)); cbn; discriminate.
  - intros [= <-]. eauto.
  - intros [= <-]. eauto.
Qed.

Lemma to_float_raises (v : value) (e : exn) :
  is_number v = true -> to_float v = Raise e -> e = OverflowError.
Proof.
  intros Hnum Hraise.
  destruct v as [ | b | n | x | s | items | entries ]; try discriminate Hnum;
    simpl in Hraise.
  - discriminate Hraise.
  - destruct (PrimFloat.is_infinity (float_of_Z n)); [ | discriminate Hraise ].
    now injection Hraise as <-.
  - discriminate Hraise.
Qed.

Lemma to_timestamp_raises (now : float) (d : dict) (e : exn) :
  _to_timestamp now (VDict d) = Raise e -> e = OverflowError.
Proof.
  unfold _to_timestamp. cbn [is_none dot_get bind].
  destruct (is_number (get d "time")) eqn:H1; cbn [andb].
  - destruct (positive (get d "time")); [ now apply to_float_raises | ].
    destruct (is_number (get d "timeNano")) eqn:H2; cbn [andb].
    + destruct (positive (get d "timeNano")).
      * destruct (to_float (get d "timeNano")) eqn:Hf; cbn; [ discriminate | ].
        intros [= <-]. now apply (to_float_raises (get d "timeNano")).
      * destruct (is_number (py_or (get d "timestamp") (get d "timeStamp"))) eqn:H3;
          cbn [andb]; [ | discriminate ].
        destruct (positive _); [ now apply to_float_raises | discriminate ].
    + destruct (is_number (py_or (get d "timestamp") (get d "timeStamp"))) eqn:H3;
        cbn [andb]; [ | discriminate ].
      destruct (positive _); [ now apply to_float_raises | discriminate ].
  - destruct (is_number (get d "timeNano")) eqn:H2; cbn [andb].
    + destruct (positive (get d "timeNano")).
      * destruct (to_float (get d "timeNano")) eqn:Hf; cbn; [ discriminate | ].
        intros [= <-]. now apply (to_float_raises (get d "timeNano")).
      * destruct (is_number (py_or (get d "timestamp") (get d "timeStamp"))) eqn:H3;
          cbn [andb]; [ | discriminate ].
        destruct (positive _); [ now apply to_float_raises | discriminate ].
    + destruct (is_number (py_or (get d "timestamp") (get d "timeStamp"))) eqn:H3;
        cbn [andb]; [ | discriminate ].
      destruct (positive _); [ now apply to_float_raises | discriminate ].
Qed.

Lemma try_except_returns {A : Type} (body : result (option A)) :
  exists r, try_except body (fun _ => Ok None) = Ok r.
Proof. destruct body; simpl; eauto. Qed.

(** X1.  [parse_event] raises in three cases only, all of them on a
    mapping: [AttributeError] when the value of [Type]/[type] is not a
    string, [TypeError] when the raw action is a list or a dict,
    [OverflowError] when the timestamp cannot be converted to a float. *)
Theorem normalizer_faults :
  forall (now : float) (raw : value) (e : exn),
    parse_event now raw = Raise e ->
    exists d,
      raw = VDict d /\
      ((e = AttributeError /\
        forall ty, py_or (get d "Type") (py_or (get d "type") (VStr "unknown"))
                   <> VStr ty) \/
       (e = TypeError /\
        ((exists items, raw_action_of d = VList items) \/
         (exists entries, raw_action_of d = VDict entries))) \/
       (e = OverflowError /\ _to_timestamp now raw = Raise e)).
Proof.
  intros now raw e H. destruct raw as [ | | | | | | d ]; try discriminate.
  exists d. split; [ reflexivity | ].
  unfold parse_event in H.
  destruct (py_or (get d "Type") (py_or (get d "type") (VStr "unknown")))
    as [ | b | n | x | ty | items | entries ] eqn:Hdom;
    cbn [dot_lower bind] in H;
    try (injection H as <-; left; split; [ reflexivity | intros ty; discriminate ]).
  right.
  destruct (_normalize_action (raw_action_of d)) as [act | e'] eqn:Hact;
    cbn [bind] in H.
  - right. destruct (truthy act); cbn [negb] in H; [ | discriminate ].
    destruct (_to_timestamp now (VDict d)) as [ts | e'] eqn:Hts; cbn [bind] in H.
    + destruct (try_except_returns
                  (if (lower ty =? "container")%string
                   then info <- _extract_container_info d ;;
                        Ok (Some {| domain := lower ty; action := act;
                                    id := py_or (info_id info) (VStr "<unknown>");
                                    name := info_name info;
                                    image := info_image info;
                                    exit_code := info_exit_code info;
                                    timestamp := ts;
                                    attributes := info_attributes info;
                                    raw := d |})
                   else attributes <- _safe_get_actor_attributes d ;;
                        Ok (Some {| domain := lower ty; action := act;
                                    id := py_or (py_or (get d "id")
                                                   (py_or (get d "ID") VNone))
                                                (VStr "<unknown>");
                                    name := get attributes "name";
                                    image := get attributes "image";
                                    exit_code := None;
                                    timestamp := ts;
                                    attributes := attributes;
                                    raw := d |})))
        as [r Hr].
      rewrite Hr in H. discriminate.
    + injection H as <-. split; [ now apply to_timestamp_raises in Hts | reflexivity ].
  - left. injection H as <-. now apply normalize_action_raises in Hact.
Qed.

Lemma normalizer_faults_witness :
  parse_event 0 (VDict [("Type", VInt 5); ("Action", VStr "die")])
  = Raise AttributeError /\
  exists d,
    VDict [("Type", VInt 5); ("Action", VStr "die")] = VDict d /\
    ((AttributeError = AttributeError /\
      forall ty, py_or (get d "Type") (py_or (get d "type") (VStr "unknown"))
                 <> VStr ty) \/
     (AttributeError = TypeError /\
      ((exists items, raw_action_of d = VList items) \/
       (exists entries, raw_action_of d = VDict entries))) \/
     (AttributeError = OverflowError /\
      _to_timestamp 0 (VDict [("Type", VInt 5); ("Action", VStr "die")])
      = Raise AttributeError)).
Proof.
  split; [ reflexivity | ].
  exact (normalizer_faults 0 (VDict [("Type", VInt 5); ("Action", VStr "die")])
           AttributeError eq_refl).
Defined.

(** X2.  Outside those three cases [parse_event] returns: when the value of
    [Type]/[type] is a string (or both are missing), the raw action is not a
    list or a dict, and the timestamp resolves, the call gives an event or
    [None], whatever else the mapping holds. *)
Theorem normalizer_returns :
  forall (now : float) (d : dict) (ty : string) (ts : float),
    py_or (get d "Type") (py_or (get d "type") (VStr "unknown")) = VStr ty ->
    (forall items, raw_action_of d <> VList items) ->
    (forall entries, raw_action_of d <> VDict entries) ->
    _to_timestamp now (VDict d) = Ok ts ->
    (exists ev, parse_event now (VDict d) = Ok (Some ev)) \/
    parse_event now (VDict d) = Ok None.
Proof.
  intros now d ty ts Hty Hlist Hdict Hts.
  destruct (parse_event_returns now d ty ts Hty Hlist Hdict Hts) as [[ev | ] Hr].
  - left. now exists ev.
  - now right.
Qed.

Lemma normalizer_returns_witness :
  (exists ev,
      parse_event 0 (VDict [("Action", VStr "die"); ("Actor", VStr "broken")])
      = Ok (Some ev)) \/
  parse_event 0 (VDict [("Action", VStr "die"); ("Actor", VStr "broken")]) = Ok None.
Proof.
  apply (normalizer_returns 0 [("Action", VStr "die"); ("Actor", VStr "broken")]
           "unknown" 0%float).
  - reflexivity.
  - intros items; discriminate.
  - intros entries; discriminate.
  - reflexivity.
Defined.

(** *** When the normalizer gives no event *)

Lemma actor_attributes_raises (d : dict) :
  (exists e, _safe_get_actor_attributes d = Raise e) <->
  (forall a, py_or (get d "Actor") (py_or (get d "actor") (VDict [])) <> VDict a).
Proof.
  unfold _safe_get_actor_attributes.
  destruct (py_or (get d "Actor") (py_or (get d "actor") (VDict [])))
    as [ | b | n | x | s | items | a ]; cbn [dot_get bind].
  1-6: split; [ intros _ a'; discriminate | intros _; eauto ].
  split.
  - intros [e He].
    destruct (py_or (get a "Attributes") (py_or (get a "attributes") (VDict [])));
      discriminate.
  - intros H. now elim (H a).
Qed.

(** X3.  On a mapping that gets as far as the [try] block (a string type, an
    action that normalizes to a truthy value, a timestamp that resolves),
    [parse_event] gives no event exactly when the value of [Actor]/[actor]
    is truthy and not a mapping; an actor that is missing or falsy, or
    attributes that are not a mapping, still give an event. *)
Theorem absent_iff_actor_malformed :
  forall (now : float) (d : dict) (ty : string) (act : value) (ts : float),
    py_or (get d "Type") (py_or (get d "type") (VStr "unknown")) = VStr ty ->
    _normalize_action (raw_action_of d) = Ok act ->
    truthy act = true ->
    _to_timestamp now (VDict d) = Ok ts ->
    (parse_event now (VDict d) = Ok None <->
     forall a, py_or (get d "Actor") (py_or (get d "actor") (VDict [])) <> VDict a).
Proof.
  intros now d ty act ts Hty Hact Htruthy Hts.
  rewrite <- actor_attributes_raises.
  unfold parse_event. rewrite Hty. cbn [dot_lower bind].
  rewrite Hact. cbn [bind]. rewrite Htruthy. cbn [negb].
  rewrite Hts. cbn [bind]. unfold _extract_container_info.
  destruct (_safe_get_actor_attributes d) as [attrs | e];
    destruct (lower ty =? "container")%string; cbn.
  1-2: split; [ discriminate | intros [e He]; discriminate ].
  all: split; [ intros _; eauto | reflexivity ].
Qed.

Lemma absent_iff_actor_malformed_witness :
  parse_event 0 (VDict [("Action", VStr "die"); ("Actor", VStr "broken")]) = Ok None <->
  forall a,
    py_or (get [("Action", VStr "die"); ("Actor", VStr "broken")] "Actor")
          (py_or (get [("Action", VStr "die"); ("Actor", VStr "broken")] "actor")
                 (VDict []))
    <> VDict a.
Proof.
  exact (absent_iff_actor_malformed 0
           [("Action", VStr "die"); ("Actor", VStr "broken")]
           "unknown" (VStr "die") 0%float eq_refl eq_refl eq_refl eq_refl).
Defined.

Lemma lookup_not_blank (s v : string) :
  lookup _ACTION_NORMALIZATION s = VStr v -> strip s <> "".
Proof.
  unfold _ACTION_NORMALIZATION. cbn [lookup].
  repeat match goal with
         | |- context [(?k =? s)%string] =>
             let H := fresh "Hkey" in
             destruct (k =? s)%string eqn:H;
             [ apply String.eqb_eq in H; subst s; intros _; vm_compute; discriminate | ]
         end.
  discriminate.
Qed.

(** X4.  A missing action and an action made of blanks only are the same to
    [parse_event]: on a mapping with a string type, a falsy raw action, or a
    string that is empty once trimmed, gives no event. *)
Theorem blank_action_is_absent :
  forall (now : float) (d : dict) (ty : string),
    py_or (get d "Type") (py_or (get d "type") (VStr "unknown")) = VStr ty ->
    (truthy (raw_action_of d) = false \/
     exists s, raw_action_of d = VStr s /\ strip s = "") ->
    parse_event now (VDict d) = Ok None.
Proof.
  intros now d ty Hty [Hfalsy | [s [Hs Hblank]]].
  - now apply (parse_event_no_action now d ty).
  - unfold parse_event. rewrite Hty. cbn [dot_lower bind].
    rewrite Hs, normalize_action_string.
    destruct (s =? "")%string; [ reflexivity | ].
    unfold normalized_verb.
    destruct (lookup_shape _ACTION_NORMALIZATION s) as [Hnone | [v Hv]].
    + rewrite Hnone, Hblank. reflexivity.
    + now elim (lookup_not_blank s v Hv).
Qed.

Lemma blank_action_is_absent_witness :
  parse_event 0 (VDict [("Type", VStr "container"); ("Action", VStr "   ")]) = Ok None.
Proof.
  apply (blank_action_is_absent 0
           [("Type", VStr "container"); ("Action", VStr "   ")] "container").
  - reflexivity.
  - right. exists "   ". split; reflexivity.
Defined.

(** *** The fields of a returned event *)

(** The domain and, outside the container domain, the fields. *)
Lemma parse_event_shape (now : float) (d : dict) (ev : NormalizedEvent) :
  parse_event now (VDict d) = Ok (Some ev) ->
  exists ty attrs,
    py_or (get d "Type") (py_or (get d "type") (VStr "unknown")) = VStr ty /\
    domain ev = lower ty /\
    _safe_get_actor_attributes d = Ok attrs /\
    attributes ev = attrs /\
    raw ev = d /\
    (domain ev <> "container" ->
       id ev = py_or (py_or (get d "id") (py_or (get d "ID") VNone))
                     (VStr "<unknown>") /\
       name ev = get attrs "name" /\
       image ev = get attrs "image" /\
       exit_code ev = None).
Proof.
  unfold parse_event. intros H.
  destruct (py_or (get d "Type") (py_or (get d "type") (VStr "unknown")))
    as [ | b | n | x | ty | items | entries ]; try discriminate.
  cbn [dot_lower bind] in H.
  apply bind_ok in H as (act & Hact & H).
  destruct (truthy act); cbn [negb] in H; [ | discriminate ].
  apply bind_ok in H as (ts & Hts & H).
  exists ty.
  destruct (lower ty =? "container")%string eqn:Hdom.
  - unfold _extract_container_info in H.
    destruct (_safe_get_actor_attributes d) as [attrs | e]; simpl in H;
      [ | discriminate ].
    exists attrs. injection H as <-. cbn.
    repeat match goal with |- _ /\ _ => split end; auto.
    intros Hne. apply String.eqb_eq in Hdom. contradiction.
  - destruct (_safe_get_actor_attributes d) as [attrs | e]; simpl in H;
      [ | discriminate ].
    exists attrs. injection H as <-. cbn.
    repeat match goal with |- _ /\ _ => split end; auto.
Qed.

(** X5.  The domain of a returned event is the value of [Type] (else
    [type], else "unknown") in lower case, so it compares equal to
    "container" whatever the case in the raw event; the event keeps the raw
    mapping as it is and its attributes are the actor's. *)
Theorem domain_is_lower_case :
  forall (now : float) (d : dict) (ev : NormalizedEvent),
    parse_event now (VDict d) = Ok (Some ev) ->
    (exists ty,
        py_or (get d "Type") (py_or (get d "type") (VStr "unknown")) = VStr ty /\
        domain ev = lower ty) /\
    lower (domain ev) = domain ev /\
    raw ev = d /\
    _safe_get_actor_attributes d = Ok (attributes ev).
Proof.
  intros now d ev H.
  apply parse_event_shape in H as (ty & attrs & Hty & Hdom & Hattrs & Hev & Hraw & _).
  split; [ now exists ty | ].
  split; [ rewrite Hdom; apply lower_idempotent | ].
  split; [ exact Hraw | now rewrite Hev ].
Qed.

Lemma domain_is_lower_case_witness :
  parse_event 0 (VDict [("Type", VStr "Container"); ("status", VStr "die")])
  = Ok (Some {| domain := "container"; action := VStr "die";
                id := VStr "<unknown>"; name := VNone; image := VNone;
                exit_code := None; timestamp := 0; attributes := [];
                raw := [("Type", VStr "Container"); ("status", VStr "die")] |}) /\
  lower "container" = "container".
Proof.
  split; [ reflexivity | ].
  exact (proj1 (proj2 (domain_is_lower_case 0
           [("Type", VStr "Container"); ("status", VStr "die")] _ eq_refl))).
Defined.

Lemma or_default_truthy (v : value) (s : string) :
  s <> "" -> truthy (py_or v (VStr s)) = true.
Proof.
  intros Hs. unfold py_or. destruct (truthy v) eqn:Hv; [ exact Hv | ].
  simpl. apply String.eqb_neq in Hs. now rewrite Hs.
Qed.

Lemma or_none_truthy (a b : value) :
  let v := py_or a (py_or b VNone) in v = VNone \/ truthy v = true.
Proof.
  unfold py_or. destruct (truthy a) eqn:Ha; [ now right | ].
  destruct (truthy b) eqn:Hb; [ now right | now left ].
Qed.

Lemma or_pair_with_default (a b : value) (s : string) :
  s <> "" ->
  py_or (py_or a (py_or b VNone)) (VStr s) = first_truthy [a; b; VStr s].
Proof.
  intros Hs. apply String.eqb_neq in Hs.
  or_cases; simpl; rewrite Hs; reflexivity.
Qed.

(** X6.  The [id] of a returned event is never missing or empty: it is
    truthy, "<unknown>" standing in when nothing else is.  In a container
    event [name] and [image] are [None] or truthy, never an empty value.
    Outside the container domain there is no exit code, the id is the
    top-level [id] or [ID], and [name] and [image] are the attributes of
    these names as they are. *)
Theorem event_fields :
  forall (now : float) (d : dict) (ev : NormalizedEvent),
    parse_event now (VDict d) = Ok (Some ev) ->
    truthy (id ev) = true /\
    (domain ev = "container" ->
       (name ev = VNone \/ truthy (name ev) = true) /\
       (image ev = VNone \/ truthy (image ev) = true)) /\
    (domain ev <> "container" ->
       exit_code ev = None /\
       id ev = first_truthy [get d "id"; get d "ID"; VStr "<unknown>"] /\
       name ev = get (attributes ev) "name" /\
       image ev = get (attributes ev) "image").
Proof.
  intros now d ev H.
  pose proof (parse_event_shape now d ev H)
    as (ty & attrs & _ & _ & _ & Hev & _ & Hother).
  apply parse_event_inv in H as (act & ts & attrs' & H).
  destruct H as (_ & _ & _ & _ & _ & _ & _ & _ & Hcontainer).
  split; [ | split ].
  - destruct (string_dec (domain ev) "container") as [Hdom | Hdom].
    + destruct (Hcontainer Hdom) as (-> & _). now apply or_default_truthy.
    + destruct (Hother Hdom) as (-> & _). now apply or_default_truthy.
  - intros Hdom. destruct (Hcontainer Hdom) as (_ & -> & -> & _).
    split; apply or_none_truthy.
  - intros Hdom. destruct (Hother Hdom) as (Hid & Hname & Himage & Hexit).
    rewrite Hev. repeat split; try assumption.
    rewrite Hid. now apply or_pair_with_default.
Qed.

Lemma event_fields_witness :
  parse_event 0 (VDict die_event) = Ok (Some die_normalized) /\
  truthy (id die_normalized) = true.
Proof.
  split; [ reflexivity | ].
  exact (proj1 (event_fields 0 die_event die_normalized eq_refl)).
Defined.

Lemma lookup_normal (s v : string) :
  lookup _ACTION_NORMALIZATION s = VStr v -> lower v = v /\ strip v = v.
Proof.
  unfold _ACTION_NORMALIZATION. cbn [lookup].
  repeat match goal with
         | |- context [(?k =? s)%string] =>
             destruct (k =? s)%string;
             [ intros [= <-]; split; vm_compute; reflexivity | ]
         end.
  discriminate.
Qed.

Lemma normalized_verb_normal (s : string) :
  lower (normalized_verb s) = normalized_verb s /\
  strip (normalized_verb s) = normalized_verb s.
Proof.
  unfold normalized_verb.
  destruct (lookup_shape _ACTION_NORMALIZATION s) as [Hnone | [v Hv]].
  - rewrite Hnone. split; [ apply lower_idempotent | ].
    now rewrite strip_lower, strip_idempotent.
  - rewrite Hv. now apply (lookup_normal s).
Qed.

(** X7.  When the raw action is a string, the action of the returned event
    is in normal form: it has no upper-case letter and no blank at either
    end, so normalizing it again by trimming and lower-casing changes
    nothing. *)
Theorem action_is_trimmed_lower_case :
  forall (now : float) (d : dict) (ev : NormalizedEvent) (s : string),
    parse_event now (VDict d) = Ok (Some ev) ->
    raw_action_of d = VStr s ->
    exists a,
      action ev = VStr a /\ a <> "" /\ lower a = a /\ strip a = a.
Proof.
  intros now d ev s H Hs.
  apply parse_event_inv in H as (act & ts & attrs & H).
  destruct H as (Hact & Htruthy & _ & _ & <- & _).
  rewrite Hs, normalize_action_string in Hact.
  destruct (s =? "")%string.
  - injection Hact as Hact. rewrite <- Hact in Htruthy. discriminate.
  - injection Hact as Hact. exists (normalized_verb s).
    split; [ now symmetry | ].
    split; [ apply truthy_string; now rewrite Hact | ].
    apply normalized_verb_normal.
Qed.

Lemma action_is_trimmed_lower_case_witness :
  parse_event 0 (VDict [("status", VStr "  Exec_Create ")])
  = Ok (Some {| domain := "unknown"; action := VStr "exec_create";
                id := VStr "<unknown>"; name := VNone; image := VNone;
                exit_code := None; timestamp := 0; attributes := [];
                raw := [("status", VStr "  Exec_Create ")] |}) /\
  exists a,
    VStr "exec_create" = VStr a /\ a <> "" /\ lower a = a /\ strip a = a.
Proof.
  split; [ reflexivity | ].
  exact (action_is_trimmed_lower_case 0 [("status", VStr "  Exec_Create ")] _
           "  Exec_Create " eq_refl eq_refl).
Defined.

Lemma first_int_sound (vs : list value) (n : Z) :
  first_int vs = Some n -> exists v, In v vs /\ Py.int v = Ok n.
Proof.
  induction vs as [ | v vs IH ]; [ discriminate | ].
  simpl. destruct (Py.int v) as [m | e] eqn:Hv.
  - intros [= <-]. exists v. auto.
  - intros H. destruct (IH H) as [v' [Hin Hint]]. exists v'. auto.
Qed.

(** X8.  An exit code is only ever given to a container event, and it is
    the [int] of the value of one of the keys [exitCode], [exit_code],
    [exit], read from the attributes or, the attribute being absent, from
    the top level.  An attribute [exitCode] that [int] accepts always wins. *)
Theorem exit_code_sources :
  forall (now : float) (d : dict) (ev : NormalizedEvent) (n : Z),
    parse_event now (VDict d) = Ok (Some ev) ->
    (exit_code ev = Some n ->
       domain ev = "container" /\
       exists key, In key exit_keys /\ Py.int (per_key (attributes ev) d key) = Ok n) /\
    (domain ev = "container" ->
       Py.int (get (attributes ev) "exitCode") = Ok n ->
       exit_code ev = Some n).
Proof.
  intros now d ev n H.
  pose proof (parse_event_shape now d ev H)
    as (ty & attrs0 & _ & _ & _ & _ & _ & Hother).
  apply parse_event_inv in H as (act & ts & attrs & H).
  destruct H as (_ & _ & _ & _ & _ & _ & <- & _ & Hcontainer).
  split.
  - intros Hexit.
    destruct (string_dec (domain ev) "container") as [Hdom | Hdom].
    + split; [ exact Hdom | ].
      destruct (Hcontainer Hdom) as (_ & _ & _ & Hscan).
      rewrite Hscan, scan_exit_code_per_key in Hexit.
      apply first_int_sound in Hexit as [v [Hin Hint]].
      apply in_map_iff in Hin as [key [<- Hkey]]. now exists key.
    + destruct (Hother Hdom) as (_ & _ & _ & Hnone). congruence.
  - intros Hdom Hint.
    destruct (Hcontainer Hdom) as (_ & _ & _ & ->).
    cbn [scan_exit_code].
    destruct (get (attributes ev) "exitCode") eqn:Hget; try discriminate;
      cbn [is_none]; now rewrite Hint.
Qed.

Lemma exit_code_sources_witness :
  parse_event 0 (VDict die_event) = Ok (Some die_normalized) /\
  exit_code die_normalized = Some 137 /\
  domain die_normalized = "container" /\
  exists key,
    In key exit_keys /\
    Py.int (per_key (attributes die_normalized) die_event key) = Ok 137.
Proof.
  split; [ reflexivity | ].
  split; [ reflexivity | ].
  exact (proj1 (exit_code_sources 0 die_event die_normalized 137 eq_refl) eq_refl).
Defined.

(** X9.  In the third rule of the timestamp chain a truthy [timestamp] hides
    [timeStamp]: when [time] and [timeNano] are not usable and [timestamp]
    is truthy but not a positive number (a negative number, a string), the
    wall clock is taken, whatever [timeStamp] holds. *)
Theorem timestamp_hides_timeStamp :
  forall (now : float) (d : dict),
    is_number (get d "time") && positive (get d "time") = false ->
    is_number (get d "timeNano") && positive (get d "timeNano") = false ->
    truthy (get d "timestamp") = true ->
    is_number (get d "timestamp") && positive (get d "timestamp") = false ->
    _to_timestamp now (VDict d) = Ok now.
Proof.
  intros now d Htime Hnano Htruthy Hunusable.
  unfold _to_timestamp. cbn [is_none dot_get bind].
  rewrite Htime, Hnano. unfold py_or. rewrite Htruthy, Hunusable. reflexivity.
Qed.

Lemma timestamp_hides_timeStamp_witness :
  _to_timestamp 1000
    (VDict [("Action", VStr "die"); ("timestamp", VStr "yesterday");
            ("timeStamp", VInt 1700000000)])
  = Ok 1000%float.
Proof.
  apply (timestamp_hides_timeStamp 1000
           [("Action", VStr "die"); ("timestamp", VStr "yesterday");
            ("timeStamp", VInt 1700000000)]); reflexivity.
Defined.

(* ================================================================== *)
(** ** Further properties of the watcher *)
(* ================================================================== *)

Lemma criticals_app (tr1 tr2 : list event) :
  criticals (tr1 ++ tr2) = criticals tr1 ++ criticals tr2.
Proof.
  induction tr1 as [ | ev tr1 IH ]; [ reflexivity | ].
  destruct ev; simpl; now rewrite IH.
Qed.

Lemma dispatched_app (tr1 tr2 : list event) :
  dispatched (tr1 ++ tr2) = dispatched tr1 ++ dispatched tr2.
Proof.
  induction tr1 as [ | ev tr1 IH ]; [ reflexivity | ].
  destruct ev; simpl; now rewrite IH.
Qed.

Lemma callback_errors_app (tr1 tr2 : list event) :
  callback_errors (tr1 ++ tr2) = callback_errors tr1 ++ callback_errors tr2.
Proof.
  induction tr1 as [ | ev tr1 IH ]; [ reflexivity | ].
  destruct ev; simpl; now rewrite IH.
Qed.

(** [k] more retries are allowed; the failure after them is the last. *)
Lemma ceiling_reached (cfg : config) (c : Z) (e : exn) (k : nat) :
  is_stream_error e = true ->
  max_retries cfg = Some c ->
  forall (st : loop_state) (rest : script),
    retries st + Z.of_nat k = c ->
    (forall j : nat,
        (j < k)%nat -> Py.refusal (Nat.iter j (escalate cfg) (backoff st)) = None) ->
    let o := loop cfg st false (failures e (S k) ++ rest) in
    status_of o = STOPPED /\
    flag_of o = false /\
    opens (trace_of o) = S k /\
    List.length (sleeps (trace_of o)) = k /\
    criticals (trace_of o) = [c].
Proof.
  intros He Hmax. induction k as [ | k IH ]; intros st rest Hretries Hvalid.
  - cbn [failures repeat app]. cbv zeta. rewrite loop_open_raises.
    rewrite (handle_stream_error_beyond cfg st e None c) by (auto; simpl in *; lia).
    repeat split.
  - change (failures e (S (S k)) ++ rest)
      with (Connect (OpenRaises e) :: (failures e (S k) ++ rest)).
    cbv zeta. rewrite loop_open_raises.
    rewrite handle_stream_error.
    2: exact He.
    2: { rewrite Hmax. lia. }
    2: exact (Hvalid 0%nat (Nat.lt_0_succ k)).
    destruct (IH {| retries := retries st + 1;
                    backoff := escalate cfg (backoff st) |} rest)
      as (Hstatus & Hflag & Hopens & Hsleeps & Hcrit).
    { cbn [retries]. lia. }
    { intros j Hj. cbn [backoff]. rewrite <- Nat.iter_succ_r. apply Hvalid. lia. }
    rewrite status_of_prepend, flag_of_prepend, trace_of_prepend.
    cbn [app opens sleeps criticals List.length].
    repeat split; try assumption; now f_equal.
Qed.

(** X10.  With a ceiling of [c] retries and backoffs that [time.sleep]
    accepts, [c + 1] consecutive failures to open the stream stop the
    watcher for good: the stream has been opened [c + 1] times with [c]
    sleeps in between, the fatal condition is logged once, and nothing that
    the daemon would do afterwards is looked at.  A ceiling of 0 stops it at
    the first failure. *)
Theorem ceiling_counts_consecutive_failures :
  forall (cfg : config) (c : nat) (e : exn) (rest : script),
    is_stream_error e = true ->
    max_retries cfg = Some (Z.of_nat c) ->
    (forall k : nat,
        (k < c)%nat ->
        Py.refusal (Nat.iter k (escalate cfg) (initial_backoff cfg)) = None) ->
    let o := _run (Watcher.__init__ cfg) (failures e (S c) ++ rest) in
    status_of o = STOPPED /\
    flag_of o = false /\
    opens (trace_of o) = S c /\
    List.length (sleeps (trace_of o)) = c /\
    criticals (trace_of o) = [Z.of_nat c].
Proof.
  intros cfg c e rest He Hmax Hvalid. unfold _run, Watcher.__init__.
  cbn [settings _stop_event].
  apply (ceiling_reached cfg (Z.of_nat c) e c He Hmax).
  - cbn [retries]. lia.
  - exact Hvalid.
Qed.

Lemma ceiling_counts_consecutive_failures_witness :
  is_stream_error APIError = true /\
  Py.refusal 1 = None /\ Py.refusal 2 = None /\
  let o := _run (Watcher.__init__ (example_config (Some 2))) (failures APIError 5) in
  status_of o = STOPPED /\
  flag_of o = false /\
  opens (trace_of o) = 3%nat /\
  List.length (sleeps (trace_of o)) = 2%nat /\
  criticals (trace_of o) = [2].
Proof.
  split; [ reflexivity | ].
  split; [ reflexivity | ].
  split; [ reflexivity | ].
  apply (ceiling_counts_consecutive_failures (example_config (Some 2)) 2 APIError
           (failures APIError 2) eq_refl eq_refl).
  intros k Hk. destruct k as [ | [ | k ] ]; [ reflexivity | reflexivity | lia ].
Defined.

(** X11.  The ceiling counts consecutive failures only: every successful
    open sets the counter back to 0.  So a daemon that accepts each
    connection and then breaks the stream never exhausts a ceiling of 1 or
    more: after any number of such streams, the initial backoff being a
    duration [time.sleep] accepts, the watcher is still running, has opened
    every one of them, and holds a retry counter of at most 1. *)
Theorem broken_streams_never_exhaust_ceiling :
  forall (cfg : config) (c : Z) (e : exn)
         (items : list (value * handler_outcome)) (n : nat) (st : loop_state),
    is_stream_error e = true ->
    max_retries cfg = Some c ->
    1 <= c ->
    Py.refusal (initial_backoff cfg) = None ->
    let o := loop cfg st false (broken_streams items e n) in
    opens (trace_of o) = n /\
    flag_of o = false /\
    exists st', status_of o = RUNNING st' /\
                (n <> 0%nat -> retries st' = 1).
Proof.
  intros cfg c e items n st He Hmax Hc Hvalid. revert st.
  induction n as [ | n IH ]; intros st.
  - cbn. repeat split. exists st. split; [ reflexivity | congruence ].
  - cbn [broken_streams repeat]. cbv zeta.
    rewrite loop_opened_yields, handle_stream_error.
    2: exact He.
    2: { rewrite Hmax. cbn [after_open retries]. lia. }
    2: exact Hvalid.
    rewrite trace_of_prepend, flag_of_prepend, status_of_prepend.
    change (repeat (Connect (Opened (yields items) (Broken e))) n)
      with (broken_streams items e n).
    destruct (IH {| retries := retries (after_open cfg) + 1;
                    backoff := escalate cfg (backoff (after_open cfg)) |})
      as (Hopens & Hflag & st' & Hstatus & Hretries).
    split; [ | split; [ exact Hflag | ] ].
    + cbn [app opens]. rewrite !opens_app, opens_calls, Hopens. reflexivity.
    + destruct n as [ | n ].
      * eexists. split; [ reflexivity | ]. intros _. reflexivity.
      * exists st'. split; [ exact Hstatus | ]. intros _. now apply Hretries.
Qed.

Lemma broken_streams_never_exhaust_ceiling_witness :
  is_stream_error OSError = true /\
  Py.refusal 1 = None /\
  let o := loop ceiling_config {| retries := 3; backoff := 5 |} false
             (broken_streams [(VInt 1, Returns)] OSError 10) in
  opens (trace_of o) = 10%nat /\
  flag_of o = false /\
  exists st', status_of o = RUNNING st' /\ (10%nat <> 0%nat -> retries st' = 1).
Proof.
  split; [ reflexivity | ].
  split; [ reflexivity | ].
  apply (broken_streams_never_exhaust_ceiling ceiling_config 3 OSError
           [(VInt 1, Returns)] 10 {| retries := 3; backoff := 5 |}).
  - reflexivity.
  - reflexivity.
  - lia.
  - reflexivity.
Defined.

(** *** The loop, one pass at a time *)

Lemma loop_item (cfg : config) (st : loop_state) (item : script_item)
      (rest : script) :
  (loop cfg st false (item :: rest) = ([Stopped], true, STOPPED)
   /\ yielded (item :: rest) = yielded rest) \/
  exists (a : attempt) (listed : list exn),
    yielded (item :: rest) = attempt_yielded a ++ yielded rest /\
    loop cfg st false (item :: rest)
    = match pass cfg st a listed with
      | (tr, flag, Continue st') => prepend (Opening :: tr) (loop cfg st' flag rest)
      | (tr, flag, Leave) => (Opening :: tr ++ [Stopped], flag, STOPPED)
      | (tr, flag, Escape e) => (Opening :: tr, flag, RAISED e)
      end.
Proof.
  destruct item as [a | a listed | ].
  - right. exists a, []. split; reflexivity.
  - right. exists a, listed. split; reflexivity.
  - left. split; [ | reflexivity ]. cbn [loop]. apply loop_stop_set.
Qed.

(** The events of the two error paths and of the closure path. *)
Lemma handle_error_trace (cfg : config) (st : loop_state) (e : exn)
      (os : option exn) :
  let '(tr, nxt) := handle_error cfg st e os in
  opens tr = 0%nat /\ dispatched tr = [] /\ callback_errors tr = [] /\
  match nxt with
  | Continue _ => criticals tr = []
  | Leave => exists c, max_retries cfg = Some c /\ criticals tr = [c]
  | Escape e' =>
      criticals tr = [] /\ exists pre d, tr = pre ++ [SleepRaised d e']
  end.
Proof.
  unfold handle_error, back_off. destruct (is_stream_error e).
  - destruct (max_retries cfg) as [c | ].
    + destruct (c <? retries st + 1).
      * repeat split. now exists c.
      * destruct (Py.sleep (backoff st) os); repeat split. eexists _, _. reflexivity.
    + destruct (Py.sleep (backoff st) os); repeat split. eexists _, _. reflexivity.
  - destruct (Py.sleep (backoff st) os); repeat split. eexists _, _. reflexivity.
Qed.

Lemma handle_closed_trace (cfg : config) (st : loop_state) (listed : list exn) :
  let '(tr, nxt) := handle_closed cfg st listed in
  opens tr = 0%nat /\ dispatched tr = [] /\ callback_errors tr = [] /\
  match nxt with
  | Continue _ => criticals tr = []
  | Leave => exists c, max_retries cfg = Some c /\ criticals tr = [c]
  | Escape e' =>
      criticals tr = [] /\ exists pre d, tr = pre ++ [SleepRaised d e']
  end.
Proof.
  unfold handle_closed. destruct (Py.sleep (backoff st) (nth_error listed 0)) as [u | e].
  - repeat split.
  - pose proof (handle_error_trace cfg st e (nth_error listed 1)) as H.
    destruct (handle_error cfg st e (nth_error listed 1)) as [tr nxt].
    destruct H as (Hopens & Hnone & Herrors & Hnext).
    cbn [opens dispatched callback_errors criticals].
    repeat split; auto.
    destruct nxt as [st' | | e']; auto.
    destruct Hnext as (Hcrit & pre & d & ->).
    split; [ exact Hcrit | ].
    now exists (ClosedUnexpectedly :: SleepRaised (backoff st) e :: pre), d.
Qed.

(** The [for] loop once the flag is set: nothing is dispatched any more. *)
Lemma consume_stop_set (steps : list stream_step) :
  let '(tr, flag, how) := consume true steps in
  flag = true /\ opens tr = 0%nat /\ criticals tr = [] /\ sleeps tr = [] /\
  dispatched tr = [] /\ callback_errors tr = [] /\
  (how = Exhausted -> steps_yielded steps = []).
Proof.
  induction steps as [ | [raw_event h | ] steps IH ].
  - cbn. repeat split.
  - cbn. repeat split. discriminate.
  - exact IH.
Qed.

(** The [for] loop while the flag is not set. *)
Lemma consume_running (steps : list stream_step) :
  let '(tr, flag, how) := consume false steps in
  opens tr = 0%nat /\ criticals tr = [] /\ sleeps tr = [] /\
  (how = Break -> flag = true) /\
  (exists rest, steps_yielded steps = dispatched tr ++ rest) /\
  (how = Exhausted -> dispatched tr = steps_yielded steps).
Proof.
  induction steps as [ | [raw_event h | ] steps IH ].
  - cbn. repeat split; try discriminate. now exists [].
  - cbn [consume steps_yielded].
    destruct (consume false steps) as [[tr flag] how].
    destruct IH as (Hopens & Hcrit & Hsleeps & Hbreak & [rest Hrest] & Hall).
    rewrite opens_app, criticals_app, sleeps_app, dispatched_app, Hopens, Hcrit, Hsleeps.
    assert (Hcalled : opens (called raw_event h) = 0%nat
                      /\ criticals (called raw_event h) = []
                      /\ sleeps (called raw_event h) = []
                      /\ dispatched (called raw_event h) = [raw_event])
      by (destruct h; repeat split).
    destruct Hcalled as (-> & -> & -> & ->).
    repeat split; auto.
    + exists rest. cbn. now rewrite Hrest.
    + intros Hhow. cbn. now rewrite Hall.
  - cbn [consume steps_yielded]. pose proof (consume_stop_set steps) as Hset.
    destruct (consume true steps) as [[tr flag] how].
    destruct Hset as (Hflag & Hopens & Hcrit & Hsleeps & Hnone & _ & Hexhausted).
    repeat split; auto.
    + exists (steps_yielded steps). now rewrite Hnone.
    + intros Hhow. now rewrite Hnone, Hexhausted.
Qed.

Ltac trace_goals :=
  repeat match goal with |- _ /\ _ => split end;
  auto;
  try (intros; discriminate);
  try (now exists []);
  try (exists []; now rewrite app_nil_r);
  try (left; split; auto; fail);
  try (right; eauto; fail).

(** What the end of a stream that was read to its end adds to the trace of
    the pass. *)
Lemma pass_tail (cfg : config) (a : list value) (tr tr' : list event)
      (flag : bool) (nxt : next) :
  opens tr = 0%nat -> criticals tr = [] -> dispatched tr = a ->
  (opens tr' = 0%nat /\ dispatched tr' = [] /\ callback_errors tr' = [] /\
   match nxt with
   | Continue _ => criticals tr' = []
   | Leave => exists c, max_retries cfg = Some c /\ criticals tr' = [c]
   | Escape e' =>
       criticals tr' = [] /\ exists pre d, tr' = pre ++ [SleepRaised d e']
   end) ->
  opens (tr ++ tr') = 0%nat /\
  (exists rest, a = dispatched (tr ++ tr') ++ rest) /\
  (forall st', nxt = Continue st' -> dispatched (tr ++ tr') = a) /\
  match nxt with
  | Continue _ => criticals (tr ++ tr') = []
  | Leave =>
      (flag = true /\ criticals (tr ++ tr') = []) \/
      exists c, max_retries cfg = Some c /\ criticals (tr ++ tr') = [c]
  | Escape e =>
      criticals (tr ++ tr') = [] /\
      exists pre d, tr ++ tr' = pre ++ [SleepRaised d e]
  end.
Proof.
  intros Hopens Hcrit Hall (Hopens' & Hnone' & _ & Hnext).
  assert (Hd : dispatched (tr ++ tr') = a)
    by (rewrite dispatched_app, Hnone', app_nil_r; exact Hall).
  assert (Ho : opens (tr ++ tr') = 0%nat)
    by (rewrite opens_app, Hopens, Hopens'; reflexivity).
  assert (Hc : criticals (tr ++ tr') = criticals tr')
    by (rewrite criticals_app, Hcrit; reflexivity).
  rewrite Hd, Ho, Hc.
  split; [ reflexivity | ].
  split; [ exists []; now rewrite app_nil_r | ].
  split; [ reflexivity | ].
  destruct nxt as [st' | | e]; auto.
  destruct Hnext as (Hcrit' & pre & d & ->).
  split; [ exact Hcrit' | ]. exists (tr ++ pre), d. now rewrite app_assoc.
Qed.

Lemma pass_trace (cfg : config) (st : loop_state) (a : attempt)
      (listed : list exn) :
  let '(tr, flag, nxt) := pass cfg st a listed in
  opens tr = 0%nat /\
  (exists rest, attempt_yielded a = dispatched tr ++ rest) /\
  (forall st', nxt = Continue st' -> dispatched tr = attempt_yielded a) /\
  match nxt with
  | Continue _ => criticals tr = []
  | Leave =>
      (flag = true /\ criticals tr = []) \/
      exists c, max_retries cfg = Some c /\ criticals tr = [c]
  | Escape e =>
      criticals tr = [] /\ exists pre d, tr = pre ++ [SleepRaised d e]
  end.
Proof.
  destruct a as [e | steps fin]; cbn [pass attempt_yielded].
  - pose proof (handle_error_trace cfg st e (nth_error listed 0)) as H.
    destruct (handle_error cfg st e (nth_error listed 0)) as [tr nxt].
    destruct H as (Hopens & Hnone & _ & Hnext).
    rewrite Hnone. destruct nxt as [st' | | e']; [ | | destruct Hnext ]; trace_goals.
  - pose proof (consume_running steps) as H.
    destruct (consume false steps) as [[tr flag] how].
    destruct H as (Hopens & Hcrit & _ & Hbreak & Hrest & Hall).
    destruct how.
    + destruct fin as [ | e ].
      * destruct flag; [ trace_goals | ].
        pose proof (handle_closed_trace cfg (after_open cfg) listed) as H.
        destruct (handle_closed cfg (after_open cfg) listed) as [tr' nxt].
        apply pass_tail; auto.
      * pose proof (handle_error_trace cfg (after_open cfg) e (nth_error listed 0)) as H.
        destruct (handle_error cfg (after_open cfg) e (nth_error listed 0))
          as [tr' nxt].
        apply pass_tail; auto.
    + specialize (Hbreak eq_refl). trace_goals.
Qed.



Lemma consume_quiet (steps : list stream_step) :
  quiet_steps steps = true ->
  exists tr, consume false steps = (tr, false, Exhausted).
Proof.
  induction steps as [ | [raw_event h | ] steps IH ]; cbn.
  - eauto.
  - intros Hq. destruct (IH Hq) as [tr ->]. eauto.
  - discriminate.
Qed.

Lemma sleeps_well_escalate (cfg : config) (b : float) :
  sleeps_well cfg b -> sleeps_well cfg (escalate cfg b).
Proof.
  intros H k. rewrite <- Nat.iter_succ_r. apply H.
Qed.

Lemma example_sleeps_well (ceiling : option Z) (j : nat) :
  sleeps_well (example_config ceiling) (doubling_capped j).
Proof.
  intros k.
  assert (Hiter : Nat.iter k (escalate (example_config ceiling)) (doubling_capped j)
                  = doubling_capped (k + j)).
  { induction k as [ | k IH ]; [ reflexivity | ].
    cbn [Nat.iter nat_rect]. unfold Nat.iter in IH. rewrite IH.
    apply escalate_doubling_capped. }
  rewrite Hiter. apply doubling_capped_accepted.
Qed.

Lemma pass_quiet (cfg : config) (st : loop_state) (a : attempt) :
  max_retries cfg = None ->
  match a with OpenRaises _ => true | Opened steps _ => quiet_steps steps end = true ->
  Py.refusal (backoff st) = None ->
  Py.refusal (initial_backoff cfg) = None ->
  exists tr st',
    pass cfg st a [] = (tr, false, Continue st') /\
    opens tr = 0%nat /\ dispatched tr = attempt_yielded a /\
    (backoff st' = escalate cfg (backoff st)
     \/ backoff st' = initial_backoff cfg
     \/ backoff st' = escalate cfg (initial_backoff cfg)).
Proof.
  intros Hmax Hquiet Hst Hinit.
  assert (Hceiling : forall st0 : loop_state,
             match max_retries cfg with
             | Some ceiling => retries st0 + 1 <= ceiling
             | None => True
             end) by (intros st0; now rewrite Hmax).
  pose proof (pass_trace cfg st a []) as H.
  assert (Hsome : exists tr st',
             pass cfg st a [] = (tr, false, Continue st') /\
             (backoff st' = escalate cfg (backoff st)
              \/ backoff st' = initial_backoff cfg
              \/ backoff st' = escalate cfg (initial_backoff cfg))).
  { destruct a as [e | steps fin]; cbn [pass nth_error].
    - destruct (is_stream_error e) eqn:He.
      + rewrite handle_stream_error by (first [ assumption | apply Hceiling ]). eexists _, _. split; [ reflexivity | ].
        now left.
      + rewrite handle_other_error by assumption. eexists _, _. split; [ reflexivity | ].
        now left.
    - destruct (consume_quiet steps Hquiet) as [tr ->].
      destruct fin as [ | e ].
      + rewrite handle_closed_accepted by exact Hinit.
        eexists _, _. split; [ reflexivity | ]. right. now left.
      + destruct (is_stream_error e) eqn:He.
        * rewrite handle_stream_error by (first [ assumption | apply Hceiling ]).
          eexists _, _. split; [ reflexivity | ]. right. now right.
        * rewrite handle_other_error by assumption.
          eexists _, _. split; [ reflexivity | ]. right. now right. }
  destruct Hsome as (tr & st' & Heq & Hbackoff). rewrite Heq in H.
  destruct H as (Hopens & _ & Hall & _).
  exists tr, st'.
  split; [ exact Heq | ]. split; [ exact Hopens | ].
  split; [ now apply (Hall st') | exact Hbackoff ].
Qed.

(** X13.  Without a retry ceiling, as long as no thread calls [stop()] and
    every backoff is a duration [time.sleep] accepts and the operating
    system carries out, nothing ends the watcher: whatever errors the
    daemon and the handler raise, it is still running at the end of the
    script, has made every connection attempt of it, and has handed every
    event the streams yielded to the handler, once and in order. *)
Theorem unbounded_watcher_survives :
  forall (cfg : config) (sc : script) (st : loop_state),
    max_retries cfg = None ->
    quiet sc = true ->
    sleeps_well cfg (initial_backoff cfg) ->
    sleeps_well cfg (backoff st) ->
    let o := loop cfg st false sc in
    (exists st', status_of o = RUNNING st') /\
    flag_of o = false /\
    opens (trace_of o) = List.length sc /\
    dispatched (trace_of o) = yielded sc.
Proof.
  intros cfg sc st Hmax Hquiet Hinit. revert st Hquiet.
  induction sc as [ | item sc IH ]; intros st Hquiet Hst; cbv zeta.
  - cbn. repeat split. eauto.
  - cbn [quiet forallb] in Hquiet. apply andb_prop in Hquiet as [Hitem Hrest].
    destruct item as [a | a listed | ]; [ | discriminate | discriminate ].
    rewrite loop_pass.
    destruct (pass_quiet cfg st a Hmax) as (tr & st' & -> & Hopens & Hall & Hbackoff).
    { destruct a; exact Hitem. }
    { exact (Hst 0%nat). }
    { exact (Hinit 0%nat). }
    rewrite status_of_prepend, flag_of_prepend, trace_of_prepend.
    destruct (IH st' Hrest) as (Hstatus & Hflag & Hn & Hd).
    { destruct Hbackoff as [-> | [-> | ->]];
        [ now apply sleeps_well_escalate | exact Hinit
        | now apply sleeps_well_escalate ]. }
    cbn [app opens dispatched List.length yielded].
    rewrite opens_app, dispatched_app, Hopens, Hall, Hn, Hd.
    repeat split; auto.
Qed.

Lemma unbounded_watcher_survives_witness :
  let sc := [ Connect (OpenRaises OSError);
              Connect (Opened [Yield (VInt 1) (Raises ValueError)] (Broken APIError));
              Connect (OpenRaises RuntimeError);
              Connect (Opened [Yield (VInt 2) Returns] Closed) ] in
  let o := loop (example_config None) {| retries := 0; backoff := 1 |} false sc in
  sleeps_well (example_config None) 1 /\
  (exists st', status_of o = RUNNING st') /\
  flag_of o = false /\
  opens (trace_of o) = 4%nat /\
  dispatched (trace_of o) = [VInt 1; VInt 2].
Proof.
  split; [ exact (example_sleeps_well None 0) | ].
  exact (unbounded_watcher_survives (example_config None)
           [ Connect (OpenRaises OSError);
             Connect (Opened [Yield (VInt 1) (Raises ValueError)] (Broken APIError));
             Connect (OpenRaises RuntimeError);
             Connect (Opened [Yield (VInt 2) Returns] Closed) ]
           {| retries := 0; backoff := 1 |} eq_refl eq_refl
           (example_sleeps_well None 0) (example_sleeps_well None 0)).
Defined.

(** X14.  Events are handed to the handler in the order the streams yield
    them, each at most once and none skipped: the events dispatched are
    always a prefix of the events yielded, whatever the handler raises,
    whichever errors occur and wherever the loop stops. *)
Theorem dispatch_is_a_prefix :
  forall (cfg : config) (sc : script) (st : loop_state) (stop_set : bool),
    exists rest,
      yielded sc = dispatched (trace_of (loop cfg st stop_set sc)) ++ rest.
Proof.
  intros cfg sc. induction sc as [ | item sc IH ]; intros st stop_set.
  - destruct stop_set; cbn; now exists [].
  - destruct stop_set.
    + rewrite loop_stop_set. cbn [trace_of fst dispatched app]. eauto.
    + destruct (loop_item cfg st item sc)
        as [[Hloop Hyielded] | (a & listed & Hyielded & Hloop)];
        rewrite Hloop.
      * cbn [trace_of fst dispatched app]. eauto.
      * rewrite Hyielded.
        pose proof (pass_trace cfg st a listed) as H.
        destruct (pass cfg st a listed) as [[tr flag] [st' | | e]];
          destruct H as (_ & [rest Hrest] & Hall & _).
        -- rewrite trace_of_prepend. cbn [app dispatched].
           rewrite dispatched_app, (Hall st' eq_refl).
           destruct (IH st' flag) as [rest' ->].
           exists rest'. now rewrite app_assoc.
        -- unfold trace_of. cbn [fst dispatched].
           rewrite dispatched_app. cbn [dispatched]. rewrite app_nil_r, Hrest.
           exists (rest ++ yielded sc). now rewrite app_assoc.
        -- unfold trace_of. cbn [fst dispatched]. rewrite Hrest.
           exists (rest ++ yielded sc). now rewrite app_assoc.
Qed.

Lemma dispatched_calls (items : list (value * handler_outcome)) :
  dispatched (calls items) = map fst items.
Proof.
  induction items as [ | [raw_event h] items IH ]; [ reflexivity | ].
  unfold calls in *. cbn [flat_map map fst snd]. rewrite dispatched_app, IH.
  destruct h; reflexivity.
Qed.

(** A sleep that is carried out lets no exception escape from the [except]
    clauses. *)
Lemma handle_error_accepted (cfg : config) (st : loop_state) (e e' : exn)
      (tr : list event) :
  Py.refusal (backoff st) = None ->
  handle_error cfg st e None <> (tr, Escape e').
Proof.
  intros Hvalid. unfold handle_error.
  rewrite !back_off_accepted by exact Hvalid.
  destruct (is_stream_error e); [ | discriminate ].
  destruct (max_retries cfg) as [c | ]; [ | discriminate ].
  destruct (c <? retries st + 1); discriminate.
Qed.

(** X15.  A stop request takes priority over further dispatch: once
    [stop()] has been called, no item the stream yields afterwards is handed
    to the handler, the stream is not opened again and the flag stays set,
    however the stream ends; the watcher is not left running, and the loop
    returns when the initial backoff is a duration [time.sleep] accepts. *)
Theorem stop_request_ends_dispatch :
  forall (cfg : config) (st : loop_state)
         (items : list (value * handler_outcome)) (later : list stream_step)
         (fin : stream_end) (rest : script),
    let o := loop cfg st false
               (Connect (Opened (yields items ++ StopSet :: later) fin) :: rest) in
    dispatched (trace_of o) = map fst items /\
    opens (trace_of o) = 1%nat /\
    flag_of o = true /\
    (forall st', status_of o <> RUNNING st') /\
    (Py.refusal (initial_backoff cfg) = None -> status_of o = STOPPED).
Proof.
  intros cfg st items later fin rest. cbv zeta.
  rewrite loop_pass. cbn [pass nth_error].
  rewrite consume_yields. cbn [consume].
  pose proof (consume_stop_set later) as H.
  destruct (consume true later) as [[tr flag] how].
  destruct H as (-> & Hopens & _ & _ & Hnone & _ & _).
  assert (Hd : forall tail, dispatched tail = [] ->
                 dispatched (Opening :: (calls items ++ tr) ++ tail) = map fst items).
  { intros tail Htail. cbn [dispatched].
    rewrite !dispatched_app, dispatched_calls, Hnone, Htail. now rewrite !app_nil_r. }
  assert (Ho : forall tail, opens tail = 0%nat ->
                 opens (Opening :: (calls items ++ tr) ++ tail) = 1%nat).
  { intros tail Htail. cbn [opens].
    now rewrite !opens_app, opens_calls, Hopens, Htail. }
  destruct how.
  - destruct fin as [ | e ].
    + unfold trace_of, flag_of, status_of. cbn [fst snd].
      rewrite Hd, Ho by reflexivity. repeat split; auto; discriminate.
    + pose proof (handle_error_trace cfg (after_open cfg) e None) as H.
      pose proof (handle_error_accepted cfg (after_open cfg) e) as Hreturns.
      destruct (handle_error cfg (after_open cfg) e None) as [tr' [st' | | e']];
        destruct H as (Hopens' & Hnone' & _ & _).
      * rewrite loop_stop_set.
        unfold trace_of, flag_of, status_of, prepend. cbn [fst snd app].
        rewrite <- app_assoc.
        rewrite Hd by (rewrite dispatched_app, Hnone'; reflexivity).
        rewrite Ho by (rewrite opens_app, Hopens'; reflexivity).
        repeat split; auto; discriminate.
      * unfold trace_of, flag_of, status_of. cbn [fst snd].
        rewrite <- app_assoc.
        rewrite Hd by (rewrite dispatched_app, Hnone'; reflexivity).
        rewrite Ho by (rewrite opens_app, Hopens'; reflexivity).
        repeat split; auto; discriminate.
      * unfold trace_of, flag_of, status_of. cbn [fst snd].
        rewrite Hd by exact Hnone'.
        rewrite Ho by exact Hopens'.
        repeat split; auto; try discriminate.
        intros Hvalid. now elim (Hreturns e' tr' Hvalid).
  - unfold trace_of, flag_of, status_of. cbn [fst snd].
    rewrite Hd, Ho by reflexivity. repeat split; auto; discriminate.
Qed.

Lemma handle_error_retries (cfg : config) (c : Z) (st st' : loop_state) (e : exn)
      (os : option exn) (tr : list event) :
  max_retries cfg = Some c ->
  0 <= retries st <= c ->
  handle_error cfg st e os = (tr, Continue st') ->
  0 <= retries st' <= c.
Proof.
  intros Hmax Hst. unfold handle_error, back_off. rewrite Hmax.
  destruct (is_stream_error e).
  - destruct (c <? retries st + 1) eqn:Hlt; [ discriminate | ].
    destruct (Py.sleep (backoff st) os); [ | discriminate ].
    intros [= _ <-]. cbn [retries]. apply Z.ltb_ge in Hlt. lia.
  - destruct (Py.sleep (backoff st) os); [ | discriminate ].
    intros [= _ <-]. exact Hst.
Qed.

Lemma handle_closed_retries (cfg : config) (c : Z) (st st' : loop_state)
      (listed : list exn) (tr : list event) :
  max_retries cfg = Some c ->
  0 <= retries st <= c ->
  handle_closed cfg st listed = (tr, Continue st') ->
  0 <= retries st' <= c.
Proof.
  intros Hmax Hst. unfold handle_closed.
  destruct (Py.sleep (backoff st) (nth_error listed 0)) as [u | e].
  - now intros [= _ <-].
  - destruct (handle_error cfg st e (nth_error listed 1)) as [tr' nxt] eqn:He.
    intros [= _ ->].
    now apply (handle_error_retries cfg c st st' e (nth_error listed 1) tr').
Qed.

Lemma pass_retries (cfg : config) (c : Z) (st st' : loop_state) (a : attempt)
      (listed : list exn) (tr : list event) (flag : bool) :
  max_retries cfg = Some c ->
  0 <= c ->
  0 <= retries st <= c ->
  pass cfg st a listed = (tr, flag, Continue st') ->
  0 <= retries st' <= c.
Proof.
  intros Hmax Hc Hst. destruct a as [e | steps fin]; cbn [pass].
  - destruct (handle_error cfg st e (nth_error listed 0)) as [tr' nxt] eqn:He.
    intros [= _ _ ->].
    now apply (handle_error_retries cfg c st st' e (nth_error listed 0) tr').
  - destruct (consume false steps) as [[tr0 flag0] how].
    destruct how; [ | discriminate ].
    destruct fin as [ | e ].
    + destruct flag0; [ discriminate | ].
      destruct (handle_closed cfg (after_open cfg) listed) as [tr' nxt] eqn:He.
      intros [= _ _ ->].
      apply (handle_closed_retries cfg c (after_open cfg) st' listed tr'); auto.
      cbn [after_open retries]. lia.
    + destruct (handle_error cfg (after_open cfg) e (nth_error listed 0))
        as [tr' nxt] eqn:He.
      intros [= _ _ ->].
      apply (handle_error_retries cfg c (after_open cfg) st' e
               (nth_error listed 0) tr'); auto.
      cbn [after_open retries]. lia.
Qed.

Lemma loop_retries (cfg : config) (c : Z) (sc : script) :
  max_retries cfg = Some c ->
  0 <= c ->
  forall (st st' : loop_state) (stop_set : bool),
    0 <= retries st <= c ->
    status_of (loop cfg st stop_set sc) = RUNNING st' ->
    0 <= retries st' <= c.
Proof.
  intros Hmax Hc. induction sc as [ | item sc IH ]; intros st st' stop_set Hst.
  - destruct stop_set; cbn; [ discriminate | ]. now intros [= <-].
  - destruct stop_set; [ rewrite loop_stop_set; discriminate | ].
    destruct (loop_item cfg st item sc) as [[Hloop _] | (a & listed & _ & Hloop)];
      rewrite Hloop; [ discriminate | ].
    destruct (pass cfg st a listed) as [[tr flag] [st1 | | e]] eqn:Hpass;
      [ | discriminate | discriminate ].
    rewrite status_of_prepend. apply IH.
    now apply (pass_retries cfg c st st1 a listed tr flag).
Qed.

(** X16.  With a ceiling [c] that is not negative, the retry counter of a
    running watcher is never below 0 and never above [c]. *)
Theorem retries_stay_within_ceiling :
  forall (w : watcher) (c : Z) (sc : script) (st' : loop_state),
    max_retries (settings w) = Some c ->
    0 <= c ->
    status_of (_run w sc) = RUNNING st' ->
    0 <= retries st' <= c.
Proof.
  intros w c sc st' Hmax Hc. unfold _run.
  apply (loop_retries (settings w) c sc Hmax Hc). cbn [retries]. lia.
Qed.

Lemma retries_stay_within_ceiling_witness :
  status_of (_run (Watcher.__init__ ceiling_config) (failures OSError 3))
  = RUNNING {| retries := 3; backoff := 5 |} /\
  0 <= 3 <= 3.
Proof.
  split; [ reflexivity | ].
  apply (retries_stay_within_ceiling (Watcher.__init__ ceiling_config) 3
           (failures OSError 3) {| retries := 3; backoff := 5 |}).
  - reflexivity.
  - lia.
  - reflexivity.
Defined.

(** *** The cap on the backoff *)

Lemma SFcompare_refl (x : spec_float) : SFcompare x x <> Some Lt.
Proof.
  destruct x as [s | s | | s m e]; cbn; try discriminate.
  - destruct s; discriminate.
  - destruct s; rewrite Z.compare_refl;
      change (Pos.compare_cont Eq m m) with (Pos.compare m m);
      rewrite Pos.compare_refl; discriminate.
Qed.

Lemma ltb_irreflexive (x : float) : (x <? x)%float = false.
Proof.
  rewrite ltb_spec. unfold SFltb.
  pose proof (SFcompare_refl (Prim2SF x)) as H.
  destruct (SFcompare (Prim2SF x) (Prim2SF x)) as [[ | | ] | ]; congruence.
Qed.

Lemma escalate_capped (cfg : config) (b : float) :
  (max_backoff cfg <? escalate cfg b)%float = false.
Proof.
  unfold escalate, Py.min.
  destruct (max_backoff cfg <? b * backoff_factor cfg)%float eqn:H;
    [ apply ltb_irreflexive | exact H ].
Qed.

Lemma handle_error_capped (cfg : config) (st : loop_state) (e : exn)
      (os : option exn) :
  (max_backoff cfg <? backoff st)%float = false ->
  let '(tr, nxt) := handle_error cfg st e os in
  Forall (fun d => (max_backoff cfg <? d)%float = false) (sleeps tr) /\
  (forall st', nxt = Continue st' -> (max_backoff cfg <? backoff st')%float = false).
Proof.
  intros Hst.
  assert (Hback : forall (logged : list event) (counted : Z),
             sleeps logged = [] ->
             let '(tr, nxt) := back_off cfg st logged counted os in
             Forall (fun d => (max_backoff cfg <? d)%float = false) (sleeps tr) /\
             (forall st', nxt = Continue st' ->
                          (max_backoff cfg <? backoff st')%float = false)).
  { intros logged counted Hlogged. unfold back_off.
    destruct (Py.sleep (backoff st) os); rewrite sleeps_app, Hlogged; cbn [sleeps app].
    - split; [ repeat constructor; exact Hst | ].
      intros st' [= <-]. apply escalate_capped.
    - split; [ constructor | discriminate ]. }
  unfold handle_error.
  destruct (is_stream_error e); [ | now apply Hback ].
  destruct (max_retries cfg) as [c | ]; [ | now apply Hback ].
  destruct (c <? retries st + 1); [ | now apply Hback ].
  cbn [sleeps]. split; [ constructor | discriminate ].
Qed.

Lemma handle_closed_capped (cfg : config) (st : loop_state) (listed : list exn) :
  (max_backoff cfg <? backoff st)%float = false ->
  let '(tr, nxt) := handle_closed cfg st listed in
  Forall (fun d => (max_backoff cfg <? d)%float = false) (sleeps tr) /\
  (forall st', nxt = Continue st' -> (max_backoff cfg <? backoff st')%float = false).
Proof.
  intros Hst. unfold handle_closed.
  destruct (Py.sleep (backoff st) (nth_error listed 0)) as [u | e].
  - cbn [sleeps]. split; [ repeat constructor; exact Hst | ].
    now intros st' [= <-].
  - pose proof (handle_error_capped cfg st e (nth_error listed 1) Hst) as H.
    destruct (handle_error cfg st e (nth_error listed 1)) as [tr nxt].
    exact H.
Qed.

Lemma pass_capped (cfg : config) (st : loop_state) (a : attempt)
      (listed : list exn) :
  (max_backoff cfg <? initial_backoff cfg)%float = false ->
  (max_backoff cfg <? backoff st)%float = false ->
  let '(tr, flag, nxt) := pass cfg st a listed in
  Forall (fun d => (max_backoff cfg <? d)%float = false) (sleeps tr) /\
  (forall st', nxt = Continue st' -> (max_backoff cfg <? backoff st')%float = false).
Proof.
  intros Hinit Hst. destruct a as [e | steps fin]; cbn [pass].
  - pose proof (handle_error_capped cfg st e (nth_error listed 0) Hst) as H.
    destruct (handle_error cfg st e (nth_error listed 0)) as [tr nxt]. exact H.
  - pose proof (consume_running steps) as H.
    destruct (consume false steps) as [[tr flag] how].
    destruct H as (_ & _ & Hsleeps & _).
    destruct how; [ | rewrite Hsleeps; split; [ constructor | discriminate ] ].
    destruct fin as [ | e ].
    + destruct flag; [ rewrite Hsleeps; split; [ constructor | discriminate ] | ].
      pose proof (handle_closed_capped cfg (after_open cfg) listed Hinit) as H.
      destruct (handle_closed cfg (after_open cfg) listed) as [tr' nxt].
      rewrite sleeps_app, Hsleeps. exact H.
    + pose proof (handle_error_capped cfg (after_open cfg) e
                    (nth_error listed 0) Hinit) as H.
      destruct (handle_error cfg (after_open cfg) e (nth_error listed 0))
        as [tr' nxt].
      rewrite sleeps_app, Hsleeps. exact H.
Qed.

Lemma loop_capped (cfg : config) (sc : script) :
  (max_backoff cfg <? initial_backoff cfg)%float = false ->
  forall (st : loop_state) (stop_set : bool),
    (max_backoff cfg <? backoff st)%float = false ->
    Forall (fun d => (max_backoff cfg <? d)%float = false)
           (sleeps (trace_of (loop cfg st stop_set sc))).
Proof.
  intros Hinit. induction sc as [ | item sc IH ]; intros st stop_set Hst.
  - destruct stop_set; cbn; constructor.
  - destruct stop_set; [ rewrite loop_stop_set; cbn; constructor | ].
    destruct (loop_item cfg st item sc) as [[Hloop _] | (a & listed & _ & Hloop)];
      rewrite Hloop; [ cbn; constructor | ].
    pose proof (pass_capped cfg st a listed Hinit Hst) as H.
    destruct (pass cfg st a listed) as [[tr flag] [st' | | e]];
      destruct H as [Htr Hnext].
    + rewrite trace_of_prepend. cbn [app sleeps]. rewrite sleeps_app.
      apply Forall_app. split; [ exact Htr | ].
      apply IH. now apply Hnext.
    + unfold trace_of. cbn [fst sleeps]. rewrite sleeps_app. cbn [sleeps].
      now rewrite app_nil_r.
    + unfold trace_of. cbn [fst sleeps]. exact Htr.
Qed.

(** X17.  No sleep is longer than the cap: when the initial backoff is not
    above [max_backoff], no duration the loop sleeps is above [max_backoff],
    whatever the growth factor and however many errors occur. *)
Theorem sleeps_never_exceed_cap :
  forall (w : watcher) (sc : script),
    (max_backoff (settings w) <? initial_backoff (settings w))%float = false ->
    Forall (fun d => (max_backoff (settings w) <? d)%float = false)
           (sleeps (trace_of (_run w sc))).
Proof.
  intros w sc Hinit. unfold _run.
  now apply loop_capped.
Qed.

Lemma sleeps_never_exceed_cap_witness :
  Forall (fun d => (5 <? d)%float = false)
         (sleeps (trace_of (_run (Watcher.__init__ (example_config None))
                              (failures OSError 8)))).
Proof.
  exact (sleeps_never_exceed_cap (Watcher.__init__ (example_config None))
           (failures OSError 8) eq_refl).
Defined.

(** *** A backoff that [time.sleep] refuses *)




(* ================================================================== *)
(** ** Properties of the Discord client and of the callback *)
(* ================================================================== *)






(** X19.  [send_event] returns [True] in one case only: a webhook is
    configured, the embed can be built, and the POST is answered with status
    200 or 204. *)
Theorem send_event_true_iff :
  forall (repr : value -> string) (self : Discord.DiscordClient)
         (ev : NormalizedEvent) (post : Discord.post_outcome),
    fst (Discord.send_event repr self ev post) = Ok true <->
    Discord.webhook_url self <> "" /\
    (exists em, Discord._build_embed repr ev = Ok em) /\
    (post = Discord.Response 200 \/ post = Discord.Response 204).
Proof.
  intros repr self ev post. unfold Discord.send_event. cbn [truthy].
  destruct (Discord.webhook_url self =? "")%string eqn:Hurl; cbn [negb].
  - apply String.eqb_eq in Hurl. cbn.
    split; [ discriminate | intros [Hne _]; contradiction ].
  - apply String.eqb_neq in Hurl.
    destruct (Discord._build_embed repr ev) as [em | e]; cbn.
    + destruct post as [code | | e]; cbn.
      * split.
        -- intros [= Hcode]. split; [ exact Hurl | split; [ eauto | ] ].
           apply orb_prop in Hcode as [Hc | Hc]; apply Z.eqb_eq in Hc; subst; auto.
        -- intros (_ & _ & [[= ->] | [= ->]]); reflexivity.
      * split; [ discriminate | intros (_ & _ & [Hp | Hp]); discriminate ].
      * split; [ discriminate | intros (_ & _ & [Hp | Hp]); discriminate ].
    + split; [ discriminate | intros (_ & [em Hem] & _); discriminate ].
Qed.

(** X20.  [send_event] posts nothing without a webhook or without an embed:
    what it posts is the embed built from the event.  It never raises a
    [requests.RequestException]: when it raises, the exception is the one of
    [_build_embed], or the one, of another class, that the POST raised. *)
Theorem send_event_faults :
  forall (repr : value -> string) (self : Discord.DiscordClient)
         (ev : NormalizedEvent) (post : Discord.post_outcome),
    (forall em,
        snd (Discord.send_event repr self ev post) = Some em ->
        Discord.webhook_url self <> "" /\ Discord._build_embed repr ev = Ok em) /\
    (forall e,
        fst (Discord.send_event repr self ev post) = Raise e ->
        Discord.webhook_url self <> "" /\
        (Discord._build_embed repr ev = Raise e \/ post = Discord.PostRaises e)) /\
    (post = Discord.RequestException ->
     fst (Discord.send_event repr self ev post) = Ok false \/
     exists e, Discord._build_embed repr ev = Raise e /\
               fst (Discord.send_event repr self ev post) = Raise e).
Proof.
  intros repr self ev post. unfold Discord.send_event. cbn [truthy].
  destruct (Discord.webhook_url self =? "")%string eqn:Hurl; cbn [negb].
  - cbn. repeat split; try discriminate. intros _. now left.
  - apply String.eqb_neq in Hurl.
    destruct (Discord._build_embed repr ev) as [em | e]; cbn.
    + destruct post as [code | | e]; cbn;
        (split; [ | split ]); intros; try discriminate;
        repeat match goal with
               | H : Some _ = Some _ |- _ => injection H as <-
               | H : Raise _ = Raise _ |- _ => injection H as <-
               end; auto.
    + (split; [ | split ]); intros; try discriminate;
        repeat match goal with
               | H : Raise _ = Raise _ |- _ => injection H as <-
               end; eauto.
Qed.

(** [docker_event_callback], case by case on what the parser gives. *)
Lemma callback_cases (repr : value -> string) (now : float) (raw_event : value)
      (client : Discord.DiscordClient) (post : Discord.post_outcome) :
  match parse_event now raw_event with
  | Raise e =>
      Main.docker_event_callback repr now raw_event client post
      = {| Main.returned := Raise e; Main.posted := None; Main.logged := [] |}
  | Ok None =>
      Main.docker_event_callback repr now raw_event client post
      = {| Main.returned := Ok tt; Main.posted := None; Main.logged := [] |}
  | Ok (Some ne) =>
      Main.returned (Main.docker_event_callback repr now raw_event client post) = Ok tt /\
      Main.posted (Main.docker_event_callback repr now raw_event client post)
      = snd (Discord.send_event repr client ne post) /\
      Main.logged (Main.docker_event_callback repr now raw_event client post)
      = match fst (Discord.send_event repr client ne post) with
        | Ok _ => [Main.EventSent (domain ne) (action ne)]
        | Raise exc => [Main.SendFailed exc]
        end
  end.
Proof.
  unfold Main.docker_event_callback.
  destruct (parse_event now raw_event) as [[ne | ] | e]; try reflexivity.
  destruct (Discord.send_event repr client ne post) as [[b | exc] sent];
    repeat split.
Qed.

(** X21.  [docker_event_callback] raises exactly when [parse_event] raises,
    and the same exception, having posted and logged nothing; no fault of
    the Discord client (an embed that cannot be built, a failing POST) ever
    leaves the callback. *)
Theorem callback_raises_iff_parser_raises :
  forall (repr : value -> string) (now : float) (raw_event : value)
         (client : Discord.DiscordClient) (post : Discord.post_outcome) (e : exn),
    (Main.returned (Main.docker_event_callback repr now raw_event client post)
     = Raise e <->
     parse_event now raw_event = Raise e) /\
    (parse_event now raw_event = Raise e ->
     Main.posted (Main.docker_event_callback repr now raw_event client post) = None /\
     Main.logged (Main.docker_event_callback repr now raw_event client post) = []).
Proof.
  intros repr now raw_event client post e.
  pose proof (callback_cases repr now raw_event client post) as H.
  destruct (parse_event now raw_event) as [[ne | ] | e'].
  - destruct H as (Hret & _). rewrite Hret.
    split; [ split; intros Habs; discriminate Habs | intros Habs; discriminate Habs ].
  - rewrite H. cbn.
    split; [ split; intros Habs; discriminate Habs | intros Habs; discriminate Habs ].
  - rewrite H. cbn.
    split; [ split; intros [= ->]; reflexivity | intros _; split; reflexivity ].
Qed.

(** X22.  The callback logs the event as sent whenever [send_event]
    returns, also when it returns [False]: without a webhook nothing is
    posted, and after an error status or a [RequestException] nothing was
    delivered, yet the record logged is "Event sent to Discord". *)
Theorem callback_logs_sent_on_false :
  forall (repr : value -> string) (now : float) (raw_event : value)
         (client : Discord.DiscordClient) (post : Discord.post_outcome)
         (ne : NormalizedEvent),
    parse_event now raw_event = Ok (Some ne) ->
    fst (Discord.send_event repr client ne post) = Ok false ->
    Main.returned (Main.docker_event_callback repr now raw_event client post) = Ok tt /\
    Main.logged (Main.docker_event_callback repr now raw_event client post)
    = [Main.EventSent (domain ne) (action ne)] /\
    (Discord.webhook_url client = "" ->
     Main.posted (Main.docker_event_callback repr now raw_event client post) = None).
Proof.
  intros repr now raw_event client post ne Hparse Hsend.
  pose proof (callback_cases repr now raw_event client post) as H.
  rewrite Hparse in H. destruct H as (Hret & Hposted & Hlogged).
  rewrite Hsend in Hlogged.
  split; [ exact Hret | split; [ exact Hlogged | ] ].
  intros Hurl. rewrite Hposted. unfold Discord.send_event. now rewrite Hurl.
Qed.

Lemma callback_logs_sent_on_false_witness :
  parse_event 0 (VDict die_event) = Ok (Some die_normalized) /\
  fst (Discord.send_event (fun _ => "") (Discord.__init__ "" None 5)
         die_normalized (Discord.Response 204)) = Ok false /\
  Main.logged (Main.docker_event_callback (fun _ => "") 0 (VDict die_event)
                 (Discord.__init__ "" None 5) (Discord.Response 204))
  = [Main.EventSent "container" (VStr "die")].
Proof.
  split; [ reflexivity | ].
  split; [ reflexivity | ].
  exact (proj1 (proj2 (callback_logs_sent_on_false (fun _ => "") 0 (VDict die_event)
                         (Discord.__init__ "" None 5) (Discord.Response 204)
                         die_normalized eq_refl eq_refl))).
Defined.

(** X23.  The watcher run with the handler of [main]: on a stream in which
    no [stop()] falls, every raw event is handed to the callback, in order,
    and the only handler faults the watcher catches and logs are the
    exceptions [parse_event] raises, in the order of the events that cause
    them; failures of the Discord client never show in the watcher. *)
Theorem watcher_with_callback :
  forall (repr : value -> string) (client : Discord.DiscordClient)
         (arrivals : list Main.arrival),
    exists tr,
      consume false (yields (Main.handled repr client arrivals))
      = (tr, false, Exhausted) /\
      dispatched tr = map Main.arrived arrivals /\
      callback_errors tr = Main.parser_faults arrivals.
Proof.
  intros repr client arrivals.
  exists (calls (Main.handled repr client arrivals)).
  split; [ apply consume_yields_all | ].
  split.
  - rewrite dispatched_calls. unfold Main.handled. rewrite map_map.
    apply map_ext. now intros [[raw_event now] post].
  - induction arrivals as [ | [[raw_event now] post] arrivals IH ]; [ reflexivity | ].
    unfold calls, Main.handled, Main.parser_faults in *.
    cbn [map flat_map fst snd]. rewrite callback_errors_app, IH. f_equal.
    unfold Main.handler.
    pose proof (callback_cases repr now raw_event client post) as H.
    destruct (parse_event now raw_event) as [[ne | ] | e].
    + destruct H as (-> & _). reflexivity.
    + rewrite H. reflexivity.
    + rewrite H. reflexivity.
Qed.

(* ================================================================== *)
(** ** Properties of the configuration and of the Docker client *)
(* ================================================================== *)

Lemma strip_single (c : ascii) :
  strip (String c EmptyString)
  = if is_space c then EmptyString else String c EmptyString.
Proof.
  destruct c as [b0 b1 b2 b3 b4 b5 b6 b7].
  destruct b0, b1, b2, b3, b4, b5, b6, b7; reflexivity.
Qed.

(** X24.  [CRITICAL_EVENTS] is built by iterating over the characters of
    the setting, not over its comma-separated names: whatever the
    environment variable holds (or the default when it is not set), every
    entry is a single character that is not a blank, so no event name of
    two letters or more, "die" among them, is ever an entry. *)
Theorem critical_events_are_characters :
  forall (env : option string) (entry : string),
    In entry (Config.CRITICAL_EVENTS env) ->
    (exists c, entry = String c EmptyString /\ is_space c = false) /\
    String.length entry = 1%nat /\
    entry <> "die".
Proof.
  intros env entry Hin. unfold Config.CRITICAL_EVENTS in Hin.
  apply in_map_iff in Hin as [e [Hstrip Hin]].
  apply filter_In in Hin as [Hin Hkeep].
  unfold Config.characters in Hin. apply in_map_iff in Hin as [c [<- _]].
  rewrite strip_single in Hstrip, Hkeep.
  destruct (is_space c) eqn:Hc; [ discriminate | ].
  subst entry. repeat split; [ eauto | discriminate ].
Qed.

Lemma critical_events_are_characters_witness :
  In "d" (Config.CRITICAL_EVENTS None) /\
  String.length "d" = 1%nat /\
  Config.CRITICAL_EVENTS (Some "die,oom") = ["d"; "i"; "e"; ","; "o"; "o"; "m"].
Proof.
  split; [ left; reflexivity | ].
  split; [ | reflexivity ].
  exact (proj1 (proj2 (critical_events_are_characters None "d"
                         (or_introl eq_refl)))).
Defined.

(** X25.  [init_docker] hands a TLS configuration to the client only for a
    [tcp://] host with [DOCKER_TLS_VERIFY] set; for any other host, a unix
    socket among them, the setting is ignored and the client is built
    without TLS.  With TLS asked for on a [tcp://] host and no certificate
    path, it raises [RuntimeError] before any client is built. *)
Theorem tls_only_for_tcp_hosts :
  forall (env : DockerClient.environment) (tls_fault : option exn)
         (daemon : DockerClient.connection),
    (forall c,
        snd (DockerClient.init_docker env tls_fault daemon) = Some c ->
        DockerClient.base_url c = DockerClient.DOCKER_HOST env /\
        (DockerClient.tls c <> None <->
         String.prefix "tcp://" (DockerClient.DOCKER_HOST env) = true /\
         DockerClient.DOCKER_TLS_VERIFY env = true)) /\
    (String.prefix "tcp://" (DockerClient.DOCKER_HOST env) = true ->
     DockerClient.DOCKER_TLS_VERIFY env = true ->
     DockerClient.DOCKER_CERT_PATH env = "" ->
     DockerClient.init_docker env tls_fault daemon = (Raise RuntimeError, None)).
Proof.
  intros env tls_fault daemon.
  unfold DockerClient.init_docker, DockerClient._build_tls_config.
  split.
  - intros c.
    destruct (String.prefix "tcp://" (DockerClient.DOCKER_HOST env));
      destruct (DockerClient.DOCKER_TLS_VERIFY env); cbn [negb].
    2-4: destruct daemon as [ | e ]; [ | destruct (DockerClient.is_docker_exception e) ];
         cbn; intros [= <-]; cbn;
         (split; [ reflexivity | ]);
         (split; [ intros H; now elim H | intros [H1 H2]; discriminate ]).
    destruct (negb (truthy (VStr (DockerClient.DOCKER_CERT_PATH env))));
      [ cbn; discriminate | ].
    destruct tls_fault as [e0 | ]; [ cbn; discriminate | ].
    destruct daemon as [ | e ]; [ | destruct (DockerClient.is_docker_exception e) ];
      cbn; intros [= <-]; cbn;
      (split; [ reflexivity | ]);
      (split; [ auto | intros _; discriminate ]).
  - intros -> -> ->. reflexivity.
Qed.

(** X26.  A [DockerException] (an [APIError] included) raised while
    connecting never leaves [init_docker] as it is: it is turned into a
    [RuntimeError].  Whatever [init_docker] raises is a [RuntimeError], the
    exception of the [TLSConfig] constructor, or an exception of the
    connection that is not a [DockerException]; and it returns a client only
    after a successful ping. *)
Theorem init_docker_faults :
  forall (env : DockerClient.environment) (tls_fault : option exn)
         (daemon : DockerClient.connection),
    (forall e,
        fst (DockerClient.init_docker env tls_fault daemon) = Raise e ->
        e = RuntimeError \/
        tls_fault = Some e \/
        (daemon = DockerClient.ConnectRaises e /\
         DockerClient.is_docker_exception e = false)) /\
    (forall e,
        daemon = DockerClient.ConnectRaises e ->
        DockerClient.is_docker_exception e = true ->
        forall c, snd (DockerClient.init_docker env tls_fault daemon) = Some c ->
                  fst (DockerClient.init_docker env tls_fault daemon)
                  = Raise RuntimeError) /\
    (forall c,
        fst (DockerClient.init_docker env tls_fault daemon) = Ok c ->
        daemon = DockerClient.Connected /\
        snd (DockerClient.init_docker env tls_fault daemon) = Some c).
Proof.
  intros env tls_fault daemon.
  unfold DockerClient.init_docker, DockerClient._build_tls_config.
  destruct (String.prefix "tcp://" (DockerClient.DOCKER_HOST env));
    destruct (DockerClient.DOCKER_TLS_VERIFY env); cbn [negb];
    try destruct (negb (truthy (VStr (DockerClient.DOCKER_CERT_PATH env))));
    try destruct tls_fault as [e0 | ];
    try (destruct daemon as [ | e' ];
         [ | destruct (DockerClient.is_docker_exception e') eqn:Hclass ]);
    cbn; (split; [ | split ]); intros;
    repeat match goal with
           | H : _ = _ |- _ => discriminate H
           | H : DockerClient.ConnectRaises _ = DockerClient.ConnectRaises _ |- _ =>
               injection H as <-
           | H : Raise _ = Raise _ |- _ => injection H as <-
           | H : Ok _ = Ok _ |- _ => injection H as <-
           end;
    auto; try congruence.
Qed.
